(** * EMR cluster migration and savings estimation

    A shallow embedding of [spark_rapids_pytools/cloud_api/emr.py]:
    the role classifier of [EMRPlatform], the topology classes
    [InstanceGroup], [Ec2Instance], [EMRNode] and [EMRCluster], the migration
    of a cluster to accelerator instance types, and [EmrSavingsEstimator].

    Python objects that are shared between clusters (instance groups and
    EC2 instances) live in an explicit store and are named by their address,
    so that "the same object" and "an equal object" are different
    statements.  Exceptions are values of an error monad. *)

From Stdlib Require Import ZArith List String Ascii Lia.
From stdpp Require Import base option list gmap strings fin_maps.

Local Open Scope string_scope.
Local Open Scope list_scope.

(** ** Exceptions *)

(** The Python exceptions the modelled code can raise.  [InvalidRef] has no
    Python counterpart: it is what the model answers when an address is not
    allocated in the store, which a Python reference never is. *)
Inductive exn : Type :=
  | AttributeError
  | TypeError
  | IndexError
  | KeyError
  | InvalidRef.

Inductive result (A : Type) : Type :=
  | Ok (a : A)
  | Err (e : exn).
Arguments Ok {A} a.
Arguments Err {A} e.

#[global] Instance result_ret : MRet result := λ A a, Ok a.
#[global] Instance result_bind : MBind result :=
  λ A B f r, match r with Ok a => f a | Err e => Err e end.

Definition or_raise {A : Type} (e : exn) (o : option A) : result A :=
  match o with Some a => Ok a | None => Err e end.

(** A [for] loop whose body may raise: the first exception ends the loop. *)
Fixpoint foldM {A B : Type} (f : A → B → result A) (l : list B) (a : A)
  : result A :=
  match l with
  | [] => Ok a
  | b :: l' => a' ← f a b; foldM f l' a'
  end.

(** ** Labels *)

(** [str.upper] on the ASCII letters.  Labels are modelled as strings of 8-bit
    characters; characters outside [a-z] are left as they are. *)
Definition ascii_upper (c : ascii) : ascii :=
  let n := nat_of_ascii c in
  if (97 <=? n)%nat && (n <=? 122)%nat then ascii_of_nat (n - 32) else c.

Fixpoint upper (s : string) : string :=
  match s with
  | EmptyString => EmptyString
  | String c s' => String (ascii_upper c) (upper s')
  end.

(** ** Enumerations of [sp_types] *)

Module SparkNodeType.
Inductive t : Type := MASTER | WORKER.

#[global] Instance eq_dec : EqDecision t.
Proof. solve_decision. Defined.

(** [SparkNodeType.fromstring] is declared in [sp_types], outside this
    file: the development is parametric in it. *)
Class Parser : Type := { fromstring : string → t }.
End SparkNodeType.

(** The members of [ClusterState] that [emr.py] names. *)
Module ClusterState.
Inductive t : Type :=
  | STARTING | BOOTSTRAPPING | WAITING | RUNNING | TERMINATED.

#[global] Instance eq_dec : EqDecision t.
Proof. solve_decision. Defined.
End ClusterState.

(** ** The topology classes *)

(** Address of an object in the store. *)
Abbreviation loc := nat.

(** [instance_type] is declared [str]; Python does not enforce it, and
    [None] is modelled by [None]. *)
Module InstanceGroup.
Record t : Type := mk {
  id : string;
  instance_type : option string;
  count : Z;
  market : string;
  group_type : string;
  spark_grp_type : SparkNodeType.t
}.
End InstanceGroup.

Module Ec2Instance.
Record t : Type := mk {
  id : string;
  ec2_instance_id : string;
  dns_name : option string;
  group : option loc;
  state : ClusterState.t
}.
End Ec2Instance.

(** The fields of [EMRNode] that [_set_fields_from_props] fills, its role tag
    and the instance it views.  The hardware description a node pulls through
    the command driver is not part of the model. *)
Module EMRNode.
Record t : Type := mk {
  node_type : SparkNodeType.t;
  name : option string;
  instance_type : option string;
  ec2_instance : loc
}.
End EMRNode.

(** The dictionary [{WORKER: worker_nodes, MASTER: master_nodes[0]}]. *)
Module Nodes.
Record t : Type := mk {
  WORKER : list EMRNode.t;
  MASTER : EMRNode.t
}.

(** [dict.items()], in insertion order. *)
Definition items (d : t) : list (SparkNodeType.t * (list EMRNode.t + EMRNode.t)) :=
  [ (SparkNodeType.WORKER, inl (WORKER d)); (SparkNodeType.MASTER, inr (MASTER d)) ].
End Nodes.

(** [instance_groups] and [ec2_instances] default to [None]; so do, here, the
    fields inherited from [ClusterBase]. *)
Module EMRCluster.
Record t : Type := mk {
  name : option string;
  uuid : option string;
  zone : option string;
  state : option ClusterState.t;
  instance_groups : option (list loc);
  ec2_instances : option (list loc);
  nodes : option Nodes.t
}.

Definition set_name v (c : t) : t :=
  mk v (uuid c) (zone c) (state c) (instance_groups c) (ec2_instances c) (nodes c).
Definition set_uuid v (c : t) : t :=
  mk (name c) v (zone c) (state c) (instance_groups c) (ec2_instances c) (nodes c).
Definition set_zone v (c : t) : t :=
  mk (name c) (uuid c) v (state c) (instance_groups c) (ec2_instances c) (nodes c).
Definition set_state v (c : t) : t :=
  mk (name c) (uuid c) (zone c) v (instance_groups c) (ec2_instances c) (nodes c).
Definition set_instance_groups v (c : t) : t :=
  mk (name c) (uuid c) (zone c) (state c) v (ec2_instances c) (nodes c).
Definition set_ec2_instances v (c : t) : t :=
  mk (name c) (uuid c) (zone c) (state c) (instance_groups c) v (nodes c).
Definition set_nodes v (c : t) : t :=
  mk (name c) (uuid c) (zone c) (state c) (instance_groups c) (ec2_instances c) v.

(** [EMRCluster(platform)]: no field set yet. *)
Definition init : t := mk None None None None None None None.
End EMRCluster.

(** ** The store *)

Record Store : Type := mkStore {
  group_objs : list InstanceGroup.t;
  instance_objs : list Ec2Instance.t
}.

Definition lookup_group (σ : Store) (l : loc) : result InstanceGroup.t :=
  or_raise InvalidRef (group_objs σ !! l).

Definition lookup_instance (σ : Store) (l : loc) : result Ec2Instance.t :=
  or_raise InvalidRef (instance_objs σ !! l).

(** Allocation places the new object after all existing ones. *)
Definition alloc_group (g : InstanceGroup.t) (σ : Store) : loc * Store :=
  (length (group_objs σ), mkStore (group_objs σ ++ [g]) (instance_objs σ)).

Definition alloc_instance (i : Ec2Instance.t) (σ : Store) : loc * Store :=
  (length (instance_objs σ), mkStore (group_objs σ) (instance_objs σ ++ [i])).

(** Every object of [σ] is in [σ'], at the same address and with the same
    fields. *)
Definition extends (σ σ' : Store) : Prop :=
  group_objs σ `prefix_of` group_objs σ' ∧
  instance_objs σ `prefix_of` instance_objs σ'.

(** ** The platform and the migration *)

Abbreviation McMap := (gmap (option string) (option string)).

(** [platform.get_supported_gpus()] and [ClusterNode.find_best_cpu_conversion],
    both declared outside this file.  The answer [None] is Python's [None]. *)
Class GpuMatcher : Type := {
  SupportedGpus : Type;
  get_supported_gpus : SupportedGpus;
  find_best_cpu_conversion : EMRNode.t → SupportedGpus → option string
}.

(** What one call of [migrate_cluster_to_gpu] leaves behind: the new cluster,
    the store, the nodes handed to [find_best_cpu_conversion] in call order,
    and the calls of [update_ctxt_notes]. *)
Record MigrationRun : Type := mkRun {
  gpu_cluster_ob : EMRCluster.t;
  heap : Store;
  matcher_calls : list EMRNode.t;
  ctxt_notes : list (string * McMap)
}.

Section Platform.
Context `{SparkNodeType.Parser}.

Definition get_spark_node_type_fromstring (value : string) : SparkNodeType.t :=
  if decide (upper value ∈ ["TASK"; "CORE"]) then SparkNodeType.WORKER
  else SparkNodeType.fromstring value.

(** The dataclass constructor of [InstanceGroup] with its [__post_init__]. *)
Definition new_InstanceGroup (id : string) (instance_type : option string)
    (count : Z) (market group_type : string) : InstanceGroup.t :=
  InstanceGroup.mk id instance_type count market group_type
    (get_spark_node_type_fromstring group_type).

End Platform.

Section Cluster.
Context `{SparkNodeType.Parser} `{GpuMatcher}.

(** *** [find_matches_for_node] *)

(** The body of [for anode in node_list], on the pair of [mc_map] and the
    calls made so far. *)
Definition find_matches_step (acc : McMap * list EMRNode.t) (anode : EMRNode.t)
  : McMap * list EMRNode.t :=
  let supported_gpus := get_supported_gpus in
  match acc.1 !! EMRNode.instance_type anode with
  | Some _ => acc
  | None =>
      let best_mc_match := find_best_cpu_conversion anode supported_gpus in
      (<[EMRNode.instance_type anode := best_mc_match]> acc.1, acc.2 ++ [anode])
  end.

(** The body of [for spark_node_type, node_list in self.nodes.items()]. *)
Definition find_matches_entry (acc : McMap * list EMRNode.t)
    (item : SparkNodeType.t * (list EMRNode.t + EMRNode.t))
  : result (McMap * list EMRNode.t) :=
  let '(spark_node_type, node_list) := item in
  if decide (spark_node_type = SparkNodeType.MASTER) then Ok acc
  else match node_list with
       | inl l => Ok (fold_left find_matches_step l acc)
       | inr _ => Err TypeError
       end.

Definition find_matches_for_node (self : EMRCluster.t)
  : result (McMap * list EMRNode.t) :=
  nodes ← or_raise AttributeError (EMRCluster.nodes self);
  foldM find_matches_entry (Nodes.items nodes) (∅, []).

(** *** [__create_node_from_instances] *)

(** [EMRNode.create_node(...).set_fields_from_dict(...)] for one instance. *)
Definition node_of_instance (σ : Store) (l : loc) : result EMRNode.t :=
  ec2_inst ← lookup_instance σ l;
  g ← or_raise AttributeError (Ec2Instance.group ec2_inst);
  grp ← lookup_group σ g;
  Ok (EMRNode.mk (InstanceGroup.spark_grp_type grp) (Ec2Instance.dns_name ec2_inst)
        (InstanceGroup.instance_type grp) l).

Definition create_node_step (σ : Store)
    (acc : list EMRNode.t * list EMRNode.t) (ec2_inst : loc)
  : result (list EMRNode.t * list EMRNode.t) :=
  let '(worker_nodes, master_nodes) := acc in
  c_node ← node_of_instance σ ec2_inst;
  if decide (EMRNode.node_type c_node = SparkNodeType.WORKER)
  then Ok (worker_nodes ++ [c_node], master_nodes)
  else Ok (worker_nodes, master_nodes ++ [c_node]).

Definition __create_node_from_instances (σ : Store) (self : EMRCluster.t)
  : result Nodes.t :=
  ec2_instances ← or_raise TypeError (EMRCluster.ec2_instances self);
  '(worker_nodes, master_nodes) ← foldM (create_node_step σ) ec2_instances ([], []);
  master ← or_raise IndexError (head master_nodes);
  Ok (Nodes.mk worker_nodes master).

(** *** [migrate_from_cluster] *)

Definition append_instance_group (l : loc) (self : EMRCluster.t) : result EMRCluster.t :=
  gs ← or_raise AttributeError (EMRCluster.instance_groups self);
  Ok (EMRCluster.set_instance_groups (Some (gs ++ [l])) self).

Definition append_ec2_instance (l : loc) (self : EMRCluster.t) : result EMRCluster.t :=
  insts ← or_raise AttributeError (EMRCluster.ec2_instances self);
  Ok (EMRCluster.set_ec2_instances (Some (insts ++ [l])) self).

(** [mc_type_map.get(curr_group.instance_type, curr_group.instance_type)]:
    the default is used only when the key is absent. *)
Definition new_instance_type_of (mc_type_map : McMap) (grp : InstanceGroup.t)
  : option string :=
  default (InstanceGroup.instance_type grp)
          (mc_type_map !! InstanceGroup.instance_type grp).

(** The body of [for curr_group in orig_cluster.instance_groups], on the
    store, [group_cache] and [self]. *)
Definition convert_group (mc_type_map : McMap)
    (st : Store * gmap string loc * EMRCluster.t) (curr_group : loc)
  : result (Store * gmap string loc * EMRCluster.t) :=
  let '(σ, group_cache, self) := st in
  grp ← lookup_group σ curr_group;
  let '(σ, group_cache, new_inst_grp) :=
    if decide (InstanceGroup.spark_grp_type grp = SparkNodeType.MASTER)
    then (σ, group_cache, curr_group)
    else
      let new_instance_type := new_instance_type_of mc_type_map grp in
      let '(new_inst_grp, new_grp, σ) :=
        if decide (new_instance_type = InstanceGroup.instance_type grp)
        then (curr_group, grp, σ)
        else
          let new_grp :=
            new_InstanceGroup (InstanceGroup.id grp) new_instance_type
              (InstanceGroup.count grp) (InstanceGroup.market grp)
              (InstanceGroup.group_type grp) in
          let '(l, σ) := alloc_group new_grp σ in (l, new_grp, σ) in
      (σ, <[InstanceGroup.id new_grp := new_inst_grp]> group_cache, new_inst_grp) in
  self ← append_instance_group new_inst_grp self;
  Ok (σ, group_cache, self).

(** The body of [for ec2_inst in orig_cluster.ec2_instances]. *)
Definition convert_instance (group_cache : gmap string loc)
    (st : Store * EMRCluster.t) (ec2_inst : loc)
  : result (Store * EMRCluster.t) :=
  let '(σ, self) := st in
  inst ← lookup_instance σ ec2_inst;
  g ← or_raise AttributeError (Ec2Instance.group inst);
  grp ← lookup_group σ g;
  let new_group_obj :=
    if decide (InstanceGroup.spark_grp_type grp = SparkNodeType.MASTER)
    then Ec2Instance.group inst
    else group_cache !! InstanceGroup.id grp in
  let '(new_inst, σ) :=
    alloc_instance
      (Ec2Instance.mk (Ec2Instance.id inst) (Ec2Instance.ec2_instance_id inst)
         None new_group_obj (Ec2Instance.state inst)) σ in
  self ← append_ec2_instance new_inst self;
  Ok (σ, self).

(** [self] is the object [migrate_cluster_to_gpu] has just made; it is not
    [orig_cluster]. *)
Definition migrate_from_cluster (self orig_cluster : EMRCluster.t) (σ : Store)
  : result MigrationRun :=
  let self := EMRCluster.set_name (EMRCluster.name orig_cluster) self in
  let self := EMRCluster.set_uuid (EMRCluster.uuid orig_cluster) self in
  let self := EMRCluster.set_zone (EMRCluster.zone orig_cluster) self in
  let self := EMRCluster.set_state (EMRCluster.state orig_cluster) self in
  let group_cache : gmap string loc := ∅ in
  let self := EMRCluster.set_instance_groups (Some []) self in
  let self := EMRCluster.set_ec2_instances (Some []) self in
  '(mc_type_map, calls) ← find_matches_for_node orig_cluster;
  instance_groups ← or_raise TypeError (EMRCluster.instance_groups orig_cluster);
  '(σ, group_cache, self) ←
    foldM (convert_group mc_type_map) instance_groups (σ, group_cache, self);
  ec2_instances ← or_raise TypeError (EMRCluster.ec2_instances orig_cluster);
  '(σ, self) ← foldM (convert_instance group_cache) ec2_instances (σ, self);
  nodes ← __create_node_from_instances σ self;
  let self := EMRCluster.set_nodes (Some nodes) self in
  let notes :=
    if decide (mc_type_map = ∅) then []
    else [("nodeConversions", mc_type_map)] in
  Ok (mkRun self σ calls notes).

(** [EMRPlatform.migrate_cluster_to_gpu]. *)
Definition migrate_cluster_to_gpu (orig_cluster : EMRCluster.t) (σ : Store)
  : result MigrationRun :=
  let gpu_cluster_ob := EMRCluster.init in
  migrate_from_cluster gpu_cluster_ob orig_cluster σ.

End Cluster.

(** ** The savings estimator *)

(** The numbers of the price catalog with the operations the estimator uses:
    the literal [0.0], [+], [*] and the conversion of a group's [count]. *)
Class Arith : Type := {
  number : Type;
  zero : number;
  add : number → number → number;
  mul : number → number → number;
  of_int : Z → number
}.

(** Modelled from the spec: [price_provider.catalog.get_value(category, type)],
    whose class is declared outside this file.  The price catalog answers
    with the unit cost of the pair or signals "not found", which is [None]
    here and a [KeyError] for the caller. *)
Class PriceCatalog `{Arith} : Type := {
  unit_cost : string → option string → option number
}.

Module EmrSavingsEstimator.
Section Fields.
Context `{Arith}.
Record t : Type := mk {
  target_cluster : EMRCluster.t;
  source_cluster : EMRCluster.t;
  target_cost : option number;
  source_cost : option number
}.
End Fields.
End EmrSavingsEstimator.

Section Estimator.
Context `{PriceCatalog}.

Definition catalog_get_value (category : string) (instance_type : option string)
  : result number :=
  or_raise KeyError (unit_cost category instance_type).

(** The body of [for curr_group in cluster.instance_groups]. *)
Definition cost_step (σ : Store) (total_cost : number) (curr_group : loc)
  : result number :=
  grp ← lookup_group σ curr_group;
  ec2_unit_cost ← catalog_get_value "ec2" (InstanceGroup.instance_type grp);
  let ec2_cost := mul ec2_unit_cost (of_int (InstanceGroup.count grp)) in
  emr_unit_cost ← catalog_get_value "emr" (InstanceGroup.instance_type grp);
  let emr_cost := mul emr_unit_cost (of_int (InstanceGroup.count grp)) in
  Ok (add total_cost (add emr_cost ec2_cost)).

Definition _get_cost_per_cluster (σ : Store) (cluster : EMRCluster.t)
  : result number :=
  let total_cost := zero in
  instance_groups ← or_raise TypeError (EMRCluster.instance_groups cluster);
  foldM (cost_step σ) instance_groups total_cost.

Definition _setup_costs (σ : Store) (self : EmrSavingsEstimator.t)
  : result EmrSavingsEstimator.t :=
  target_cost ← _get_cost_per_cluster σ (EmrSavingsEstimator.target_cluster self);
  let self :=
    EmrSavingsEstimator.mk (EmrSavingsEstimator.target_cluster self)
      (EmrSavingsEstimator.source_cluster self) (Some target_cost)
      (EmrSavingsEstimator.source_cost self) in
  source_cost ← _get_cost_per_cluster σ (EmrSavingsEstimator.source_cluster self);
  Ok (EmrSavingsEstimator.mk (EmrSavingsEstimator.target_cluster self)
        (EmrSavingsEstimator.source_cluster self)
        (EmrSavingsEstimator.target_cost self) (Some source_cost)).

End Estimator.

(** ** Vocabulary for the statements about a migration *)

Section Vocabulary.
Context `{SparkNodeType.Parser}.

(** The object a migration puts at [l'] in [instance_groups] for the source
    group at [l]: that very object for a master-role group and for a group
    whose looked-up type is its own, and otherwise an object allocated by
    this migration, at or above address [n], that differs from the source
    group in its instance type only.  [σ'] is the store after the
    migration. *)
Definition group_converted (mc_type_map : McMap) (n : nat) (σ' : Store)
    (l l' : loc) : Prop :=
  ∃ grp, group_objs σ' !! l = Some grp ∧
    if decide (InstanceGroup.spark_grp_type grp = SparkNodeType.MASTER) then l' = l
    else if decide (new_instance_type_of mc_type_map grp = InstanceGroup.instance_type grp)
    then l' = l
    else (n ≤ l')%nat ∧
         group_objs σ' !! l' =
           Some (new_InstanceGroup (InstanceGroup.id grp)
                   (new_instance_type_of mc_type_map grp) (InstanceGroup.count grp)
                   (InstanceGroup.market grp) (InstanceGroup.group_type grp)).

(** The object a migration puts at [l'] in [ec2_instances] for the source
    instance at [l]: a new object, at or above address [n], with the
    identifiers and the state of the source instance, no DNS name, and the
    group of the source instance when that group has the master role, the
    entry of [group_cache] for the group's id otherwise. *)
Definition instance_converted (group_cache : gmap string loc) (n : nat)
    (σ' : Store) (l l' : loc) : Prop :=
  ∃ inst g grp,
    instance_objs σ' !! l = Some inst ∧
    Ec2Instance.group inst = Some g ∧
    group_objs σ' !! g = Some grp ∧
    (n ≤ l')%nat ∧
    instance_objs σ' !! l' =
      Some (Ec2Instance.mk (Ec2Instance.id inst) (Ec2Instance.ec2_instance_id inst)
              None
              (if decide (InstanceGroup.spark_grp_type grp = SparkNodeType.MASTER)
               then Ec2Instance.group inst
               else group_cache !! InstanceGroup.id grp)
              (Ec2Instance.state inst)).

(** A cluster as [_init_nodes] leaves it: the three collections are set, the
    groups are allocated, every instance is allocated and belongs to one of
    the groups of the cluster, and some instance belongs to a master-role
    group. *)
Definition well_formed (σ : Store) (c : EMRCluster.t) : Prop :=
  ∃ nodes gs insts,
    EMRCluster.nodes c = Some nodes ∧
    EMRCluster.instance_groups c = Some gs ∧
    EMRCluster.ec2_instances c = Some insts ∧
    Forall (λ l, is_Some (group_objs σ !! l)) gs ∧
    Forall (λ l, ∃ inst g, instance_objs σ !! l = Some inst ∧
                           Ec2Instance.group inst = Some g ∧ g ∈ gs) insts ∧
    Exists (λ l, ∃ inst g grp,
                   instance_objs σ !! l = Some inst ∧
                   Ec2Instance.group inst = Some g ∧
                   group_objs σ !! g = Some grp ∧
                   InstanceGroup.spark_grp_type grp = SparkNodeType.MASTER) insts.

End Vocabulary.

(** ** The role classifier of the specification *)

(** Modelled from the spec: [SparkNodeType.fromstring], whose class is
    declared outside this file.  A closed set of literal label variants,
    [master_labels], denotes the primary control node and maps to the master
    role; every other label maps to the worker role. *)
Definition fromstring_of_spec (master_labels : list string) : SparkNodeType.Parser :=
  {| SparkNodeType.fromstring value :=
       if decide (value ∈ master_labels) then SparkNodeType.MASTER
       else SparkNodeType.WORKER |}.

(** The labels of [master_labels] that the classifier of [EMRPlatform] sends
    to the master role: those it does not take for a worker tier first. *)
Definition master_variants (master_labels : list string) : list string :=
  filter (λ value, upper value ∉ ["TASK"; "CORE"]) master_labels.

(** ** The cost of the specification *)

Section SpecCost.
Context `{PriceCatalog}.



End SpecCost.

(** ** The scenarios of the specification *)

Module Scenario.

Definition parser : SparkNodeType.Parser :=
  fromstring_of_spec ["MASTER"; "Master"; "master"].

(** The matcher that maps r5.2xlarge to g5.2xlarge and finds nothing else. *)
Definition matcher_g5 : GpuMatcher :=
  {| SupportedGpus := list string;
     get_supported_gpus := ["g5.2xlarge"];
     find_best_cpu_conversion anode _ :=
       if decide (EMRNode.instance_type anode = Some "r5.2xlarge")
       then Some "g5.2xlarge" else None |}.

(** The matcher that finds no match. *)
Definition matcher_none : GpuMatcher :=
  {| SupportedGpus := list string;
     get_supported_gpus := ["g5.2xlarge"];
     find_best_cpu_conversion _ _ := None |}.

(** The matcher that answers with the type of the node itself. *)
Definition matcher_same : GpuMatcher :=
  {| SupportedGpus := list string;
     get_supported_gpus := ["g5.2xlarge"];
     find_best_cpu_conversion anode _ := EMRNode.instance_type anode |}.

(** One master group with one instance and one worker group with three. *)
Definition master_group : InstanceGroup.t :=
  @new_InstanceGroup parser "ig-M" (Some "m5.xlarge") 1 "ON_DEMAND" "MASTER".
Definition core_group : InstanceGroup.t :=
  @new_InstanceGroup parser "ig-C" (Some "r5.2xlarge") 3 "ON_DEMAND" "CORE".

Definition instance (n : string) (g : loc) : Ec2Instance.t :=
  Ec2Instance.mk ("ci-" +:+ n) ("i-" +:+ n) (Some ("ec2-" +:+ n)) (Some g)
    ClusterState.RUNNING.

Definition store : Store :=
  mkStore [master_group; core_group]
    [instance "0" 0%nat; instance "1" 1%nat; instance "2" 1%nat; instance "3" 1%nat].

Definition unloaded : EMRCluster.t :=
  EMRCluster.mk (Some "cluster") (Some "j-1") (Some "us-west-2a")
    (Some ClusterState.WAITING) (Some [0; 1]%nat) (Some [0; 1; 2; 3]%nat) None.

Definition source_nodes : Nodes.t :=
  Nodes.mk
    [EMRNode.mk SparkNodeType.WORKER (Some "ec2-1") (Some "r5.2xlarge") 1%nat;
     EMRNode.mk SparkNodeType.WORKER (Some "ec2-2") (Some "r5.2xlarge") 2%nat;
     EMRNode.mk SparkNodeType.WORKER (Some "ec2-3") (Some "r5.2xlarge") 3%nat]
    (EMRNode.mk SparkNodeType.MASTER (Some "ec2-0") (Some "m5.xlarge") 0%nat).

Definition source : EMRCluster.t :=
  EMRCluster.set_nodes (Some source_nodes) unloaded.

(** The same instances with a second master group. *)
Definition two_masters_store : Store :=
  mkStore [master_group; core_group; master_group]
    [instance "0" 0%nat; instance "1" 1%nat; instance "2" 2%nat].

Definition two_masters : EMRCluster.t :=
  EMRCluster.mk (Some "cluster") (Some "j-2") (Some "us-west-2a")
    (Some ClusterState.WAITING) (Some [0; 1; 2]%nat) (Some [0; 1; 2]%nat) None.

(** Exact integer prices. *)
Definition Z_arith : Arith :=
  {| number := Z; zero := 0%Z; add := Z.add; mul := Z.mul; of_int n := n |}.

Definition price (ec2 emr : Z) (category : string) : option Z :=
  if decide (category = "ec2") then Some ec2
  else if decide (category = "emr") then Some emr else None.

Definition price_list (category : string) (instance_type : option string)
  : option Z :=
  if decide (instance_type = Some "m5.xlarge") then price 10 2 category
  else if decide (instance_type = Some "r5.2xlarge") then price 20 5 category
  else if decide (instance_type = Some "g5.2xlarge") then price 15 8 category
  else None.

Definition prices : @PriceCatalog Z_arith := @Build_PriceCatalog Z_arith price_list.

(** The same catalog without the surcharge of g5.2xlarge. *)
Definition price_list_no_gpu_surcharge (category : string)
    (instance_type : option string) : option Z :=
  if decide (instance_type = Some "g5.2xlarge" ∧ category = "emr") then None
  else price_list category instance_type.

Definition prices_no_gpu_surcharge : @PriceCatalog Z_arith :=
  @Build_PriceCatalog Z_arith price_list_no_gpu_surcharge.

(** The migrated groups of the source, as [matcher_g5] leaves them. *)
Definition gpu_group : InstanceGroup.t :=
  @new_InstanceGroup parser "ig-C" (Some "g5.2xlarge") 3 "ON_DEMAND" "CORE".

Definition target_store : Store :=
  mkStore [master_group; core_group; gpu_group] [].

Definition target : EMRCluster.t :=
  EMRCluster.mk (Some "cluster") (Some "j-1") (Some "us-west-2a")
    (Some ClusterState.WAITING) (Some [0; 2]%nat) (Some []) None.


End Scenario.

(** ** The role of an instance *)

(** The role under which [__create_node_from_instances] files the instance
    at [l], when the instance and its group resolve. *)
Definition role_of_instance (σ : Store) (l : loc) : option SparkNodeType.t :=
  inst ← instance_objs σ !! l;
  g ← Ec2Instance.group inst;
  grp ← group_objs σ !! g;
  Some (InstanceGroup.spark_grp_type grp).

(** ** Python values and dictionaries *)

(** A dictionary with string keys, in insertion order. *)
Abbreviation dict V := (list (string * V)).

(** [d.get(k)] and [k in d]. *)
Definition dict_get {V : Type} (d : dict V) (k : string) : option V :=
  (list_to_map d : gmap string V) !! k.

(** The keys, as [for k in d] visits them. *)
Definition dict_keys {V : Type} (d : dict V) : list string := d.*1.

(** What an f-string makes of a value that is a string or [None]. *)
Definition format_opt (v : option string) : string :=
  match v with Some s => s | None => "None" end.

(** [' '.join(parts)]. *)
Fixpoint join_spaces (parts : list string) : string :=
  match parts with
  | [] => ""
  | [p] => p
  | p :: parts' => p +:+ " " +:+ join_spaces parts'
  end.

(** ** [EMRPlatform.validate_job_submission_args] *)

(** Exceptions of the driver code: the built-in ones and
    [RuntimeError(message)]. *)
Inductive pyexn : Type :=
  | Builtin (e : exn)
  | RuntimeError (message : string).

Inductive outcome (A : Type) : Type :=
  | Return (a : A)
  | Raise (e : pyexn).
Arguments Return {A} a.
Arguments Raise {A} e.

#[global] Instance outcome_ret : MRet outcome := λ A a, Return a.
#[global] Instance outcome_bind : MBind outcome :=
  λ A B f r, match r with Return a => f a | Raise e => Raise e end.

Definition lift_result {A : Type} (r : result A) : outcome A :=
  match r with Ok a => Return a | Err e => Raise (Builtin e) end.

Definition valid_keys : list string := ["execution-role-arn"; "application-id"].

(** The message of the [RuntimeError]; the list is printed as Python prints
    it. *)
Definition invalid_submission_argument (submit_arg : string) : string :=
  "Invalid submission argument [" +:+ submit_arg +:+
  "]. Accepted arguments: ['execution-role-arn', 'application-id'].".

Definition application_id_warning : string :=
  "The EMR-Serverless application-ID is not set. " +:+
  "Note that it is recommended to use a pre-existing SPARK EMR-Serverless " +:+
  "application-id to reduce the overhead of initializing the job.".

(** The loop over the keys, on the warnings logged so far. *)
Fixpoint validate_loop (submission_args : dict (option string))
    (keys : list string) (warnings : list string) : list string * outcome unit :=
  match keys with
  | [] => (warnings, Return tt)
  | submit_arg :: keys' =>
      if decide (submit_arg ∉ valid_keys)
      then (warnings, Raise (RuntimeError (invalid_submission_argument submit_arg)))
      else
        let warnings :=
          if decide (submit_arg = "application-id" ∧
                     mjoin (dict_get submission_args submit_arg) = None)
          then warnings ++ [application_id_warning]
          else warnings in
        validate_loop submission_args keys' warnings
  end.

(** The warnings sent to the logger and the result. *)
Definition validate_job_submission_args (submission_args : dict (option string))
  : list string * outcome (dict (option string)) :=
  let '(warnings, r) := validate_loop submission_args (dict_keys submission_args) [] in
  (warnings, _ ← r; Return submission_args).

(** ** The command lines of [EMRCMDDriver] *)

(** [_build_platform_list_cluster]; [query_args] is [None] or a dictionary of
    strings. *)
Definition _build_platform_list_cluster (cluster : EMRCluster.t)
    (query_args : option (dict string)) : list string :=
  let cmd_params :=
    ["aws emr list-instances"; "--cluster-id"; format_opt (EMRCluster.uuid cluster)] in
  match query_args with
  | None => cmd_params
  | Some query_args =>
      fold_left
        (λ cmd_params q_key,
           (cmd_params ++ ["--" +:+ q_key]) ++ [format_opt (dict_get query_args q_key)])
        (dict_keys query_args) cmd_params
  end.

(** [_build_ssh_cmd_prefix_for_node], given [env_vars.get('keyPairPath')]. *)
Definition _build_ssh_cmd_prefix_for_node (keyPairPath : option string)
    (node : EMRNode.t) : string :=
  let pem_file_path := keyPairPath in
  let prefix_args :=
    ["ssh"; "-o StrictHostKeyChecking=no"; "-i " +:+ format_opt pem_file_path;
     "hadoop@" +:+ format_opt (EMRNode.name node)] in
  join_spaces prefix_args.

(** ** Values of parsed JSON documents *)

(** What [json.loads] yields, without floating-point numbers: [None],
    booleans, integers, strings, lists and dictionaries with string keys in
    insertion order. *)
#[local] Unset Elimination Schemes.
Inductive pyval : Type :=
  | PNone
  | PBool (b : bool)
  | PInt (z : Z)
  | PStr (s : string)
  | PList (l : list pyval)
  | PDict (d : dict pyval).
#[local] Set Elimination Schemes.

(** The truth value of [if x:]. *)
Definition truthy (x : pyval) : bool :=
  match x with
  | PNone => false
  | PBool b => b
  | PInt z => negb (z =? 0)%Z
  | PStr s => negb (String.eqb s "")
  | PList l => match l with [] => false | _ => true end
  | PDict d => match d with [] => false | _ => true end
  end.

Definition is_None (x : pyval) : bool :=
  match x with PNone => true | _ => false end.

(** [x[key]] for a string [key]: defined on dictionaries; lists and strings
    want integer indices and the other values are not subscriptable. *)
Definition subscript (x : pyval) (key : string) : result pyval :=
  match x with
  | PDict d => or_raise KeyError (dict_get d key)
  | _ => Err TypeError
  end.

(** [x[0]]. *)
Definition subscript_0 (x : pyval) : result pyval :=
  match x with
  | PList l => or_raise IndexError (head l)
  | PStr s =>
      match s with
      | EmptyString => Err IndexError
      | String c _ => Ok (PStr (String c EmptyString))
      end
  | PDict _ => Err KeyError
  | _ => Err TypeError
  end.

(** [x.get(key)]: a method of dictionaries only. *)
Definition get_method (x : pyval) (key : string) : result pyval :=
  match x with
  | PDict d => Ok (default PNone (dict_get d key))
  | _ => Err AttributeError
  end.

(** [x.startswith(prefix)]: a method of strings only. *)
Definition startswith (x : pyval) (prefix : string) : result bool :=
  match x with
  | PStr s => Ok (String.prefix prefix s)
  | _ => Err AttributeError
  end.

(** [key in x] for a string [key]: a key of a dictionary, an element of a
    list, a substring of a string. *)
Definition contains (x : pyval) (key : string) : result bool :=
  match x with
  | PDict d => Ok (bool_decide (key ∈ dict_keys d))
  | PList l =>
      Ok (existsb (λ e, match e with PStr s => String.eqb s key | _ => false end) l)
  | PStr s =>
      Ok (match String.index 0 key s with Some _ => true | None => false end)
  | _ => Err TypeError
  end.

(** The values [for item in x] visits. *)
Definition iterate (x : pyval) : result (list pyval) :=
  match x with
  | PList l => Ok l
  | PDict d => Ok (PStr <$> dict_keys d)
  | PStr s => Ok ((λ c, PStr (String c EmptyString)) <$> list_ascii_of_string s)
  | _ => Err TypeError
  end.

(** [len(x)]. *)
Definition py_len (x : pyval) : result nat :=
  match x with
  | PList l => Ok (length l)
  | PDict d => Ok (length d)
  | PStr s => Ok (String.length s)
  | _ => Err TypeError
  end.

(** [x.popitem()]: the entry inserted last, as the pair of its key and its
    value, and the dictionary it leaves. *)
Definition popitem (x : pyval) : result ((string * pyval) * pyval) :=
  match x with
  | PDict d =>
      match last d with
      | Some item => Ok (item, PDict (removelast d))
      | None => Err KeyError
      end
  | _ => Err AttributeError
  end.

(** ** Property containers *)

(** A property container with its [props]. *)
Record PropsContainer : Type := mkProps { props : pyval }.

(** The readers of [AbstractPropertiesContainer] and the JSON printer and
    parser, all declared outside this file. *)
Class PropsReader : Type := {
  get_value : PropsContainer → list string → result pyval;
  get_value_silent : PropsContainer → list string → pyval;
  json_dumps : pyval → string
}.

Section Props.
Context `{PropsReader}.

(** [EMRPlatform.process_raw_cluster_prop]: the container after the call and
    the string returned. *)
Definition process_raw_cluster_prop (prop_container : PropsContainer)
  : result (PropsContainer * string) :=
  prop_container ←
    (if truthy (get_value_silent prop_container ["Cluster"])
     then '((_, new_props), _) ← popitem (props prop_container); Ok (mkProps new_props)
     else Ok prop_container);
  Ok (prop_container, json_dumps (props prop_container)).

(** [EMRCluster._process_loaded_props], on [self.props]. *)
Definition _process_loaded_props (self_props : PropsContainer) : result PropsContainer :=
  if negb (is_None (get_value_silent self_props ["Cluster"]))
  then '((_, new_props), _) ← popitem (props self_props); Ok (mkProps new_props)
  else Ok self_props.

(** The body of the loop of [get_eventlogs_from_config]. *)
Definition eventlogs_step (res_arr : list pyval) (conf_item : pyval)
  : result (list pyval) :=
  classification ← subscript conf_item "Classification";
  is_spark ← startswith classification "spark";
  if is_spark : bool then
    conf_props ← subscript conf_item "Properties";
    has_dir ← contains conf_props "spark.eventLog.dir";
    if has_dir : bool then
      dir ← subscript conf_props "spark.eventLog.dir";
      Ok (res_arr ++ [dir])
    else Ok res_arr
  else Ok res_arr.

(** [EMRCluster.get_eventlogs_from_config], on [self.props]. *)
Definition get_eventlogs_from_config (self_props : PropsContainer)
  : result (list pyval) :=
  let res_arr := [] in
  let configs_list := get_value_silent self_props ["Configurations"] in
  conf_items ← iterate configs_list;
  foldM eventlogs_step conf_items res_arr.

End Props.

(** ** The hardware description of a node *)

(** [GpuDevice] and its [fromstring], declared in [sp_types]. *)
Class GpuDevices : Type := {
  GpuDevice : Type;
  GpuDevice_fromstring : pyval → result GpuDevice
}.

(** [GpuHWInfo] and [SysInfo] of [sp_types], with the fields [emr.py] sets. *)
Record GpuHWInfo `{GpuDevices} : Type := mkGpuHWInfo {
  num_gpus : pyval;
  gpu_device : GpuDevice;
  gpu_mem : pyval
}.
Arguments mkGpuHWInfo {_} num_gpus gpu_device gpu_mem.

Record SysInfo : Type := mkSysInfo {
  num_cpus : pyval;
  cpu_mem : pyval
}.

Section Hardware.
Context `{PropsReader} `{GpuDevices}.

(** [EMRNode._pull_sys_info], on [self.mc_props]. *)
Definition _pull_sys_info (mc_props : PropsContainer) : result SysInfo :=
  cpu_mem ← get_value mc_props ["MemoryInfo"; "SizeInMiB"];
  num_cpus ← get_value mc_props ["VCpuInfo"; "DefaultVCpus"];
  Ok (mkSysInfo num_cpus cpu_mem).

(** [EMRNode._pull_gpu_hw_info], on [self.mc_props]. *)
Definition _pull_gpu_hw_info (mc_props : PropsContainer) : result (option GpuHWInfo) :=
  let raw_gpus := get_value_silent mc_props ["GpuInfo"] in
  if is_None raw_gpus then Ok None
  else
    raw_gpu_arr ← get_method raw_gpus "Gpus";
    if is_None raw_gpu_arr then Ok None
    else
      raw_gpu ← subscript_0 raw_gpu_arr;
      name ← subscript raw_gpu "Name";
      gpu_device ← GpuDevice_fromstring name;
      gpu_cnt ← subscript raw_gpu "Count";
      memory_info ← subscript raw_gpu "MemoryInfo";
      gpu_mem ← subscript memory_info "SizeInMiB";
      Ok (Some (mkGpuHWInfo gpu_cnt gpu_device gpu_mem)).

End Hardware.

(** ** [EMRCMDDriver.pull_cluster_props_by_args] *)

(** What the driver relies on and this file does not declare: running a
    system command, [json.loads], the constructor
    [JSONPropertiesContainer(prop_arg=..., file_load=False)], and the text an
    f-string makes of a value that is neither a string nor [None]. *)
Class SysCommands : Type := {
  run_sys_cmd : string → outcome pyval;
  json_loads : pyval → outcome pyval;
  JSONPropertiesContainer : pyval → outcome PropsContainer;
  py_str : pyval → string
}.

(** A computation with the commands it has run, in order. *)
Definition logged (A : Type) : Type := list string * outcome A.

Definition and_then {A B : Type} (m : logged A) (k : A → logged B) : logged B :=
  match m with
  | (cmds, Return a) => let '(cmds', r) := k a in (cmds ++ cmds', r)
  | (cmds, Raise e) => (cmds, Raise e)
  end.

Definition quiet {A : Type} (r : outcome A) : logged A := ([], r).

Section Pull.
Context `{PropsReader} `{SysCommands}.

(** What an f-string makes of a value. *)
Definition format_value (v : pyval) : string :=
  match v with
  | PStr s => s
  | PNone => "None"
  | _ => py_str v
  end.

Definition of_option (v : option string) : pyval :=
  match v with Some s => PStr s | None => PNone end.

Definition exec_platform_list_cluster_by_name (cluster_name : option string)
  : logged pyval :=
  let list_cmd :=
    "aws emr list-clusters --query 'Clusters[?Name==`" +:+ format_opt cluster_name
    +:+ "`]'" in
  ([list_cmd], run_sys_cmd list_cmd).

Definition exec_platform_describe_cluster_by_id (cluster_id : pyval) : logged pyval :=
  let describe_cmd :=
    "aws emr describe-cluster --cluster-id " +:+ format_value cluster_id in
  ([describe_cmd], run_sys_cmd describe_cmd).

Definition could_not_find (cluster_name : option string) : string :=
  "Could not find EMR cluster " +:+ format_opt cluster_name +:+ " by name".

(** The commands run and the value returned: the string of the cluster
    properties, or [None]. *)
Definition pull_cluster_props_by_args (args : dict (option string)) : logged pyval :=
  let aws_cluster_id := of_option (mjoin (dict_get args "Id")) in
  let cluster_name := mjoin (dict_get args "cluster") in
  and_then
    (if is_None (of_option (mjoin (dict_get args "Id"))) then
       and_then (exec_platform_list_cluster_by_name cluster_name) (λ list_cmd_res,
       let error_msg := could_not_find cluster_name in
       if negb (truthy list_cmd_res) then quiet (Raise (RuntimeError error_msg))
       else
         and_then (quiet (json_loads list_cmd_res)) (λ cluster_headers,
         and_then (quiet (lift_result (py_len cluster_headers))) (λ n,
         if decide (n = 0%nat) then quiet (Raise (RuntimeError error_msg))
         else
           and_then (quiet (lift_result (subscript_0 cluster_headers)))
             (λ existing_cluster,
           quiet (lift_result (subscript existing_cluster "Id"))))))
     else quiet (Return aws_cluster_id))
    (λ aws_cluster_id,
     and_then (exec_platform_describe_cluster_by_id aws_cluster_id)
       (λ cluster_described,
     if negb (is_None cluster_described) then
       and_then (quiet (JSONPropertiesContainer cluster_described))
         (λ raw_prop_container,
       and_then (quiet (lift_result (process_raw_cluster_prop raw_prop_container)))
         (λ r, quiet (Return (PStr r.2))))
     else quiet (Return cluster_described))).

End Pull.

(** ** Loading a cluster from its description *)

(** An entry of InstanceGroups in the description of a cluster, as a
    dictionary restricted to the keys the code reads, with values of the
    types that the fields of [InstanceGroup] declare; [None] is a key that
    is absent. *)
Module RawInstanceGroup.
Record t : Type := mk {
  Id : option string;
  InstanceType : option string;
  RequestedInstanceCount : option Z;
  Market : option string;
  InstanceGroupType : option string
}.
End RawInstanceGroup.

(** An entry of Instances in the listing of a group, in the same way;
    [Status] holds the State of the Status dictionary. *)
Module RawInstance.
Record t : Type := mk {
  Id : option string;
  Ec2InstanceId : option string;
  PublicDnsName : option string;
  Status : option (option string)
}.
End RawInstance.

(** [ClusterState.fromstring] of [sp_types], and the listing of the instances
    of a cluster: [cli.exec_platform_list_cluster_instances(cluster,
    query_args)] parsed by [json.loads] and read with [.get('Instances')],
    which is [None] without that key. *)
Class ClusterLoader : Type := {
  ClusterState_fromstring : string → ClusterState.t;
  list_cluster_instances :
    EMRCluster.t → dict string → result (option (list RawInstance.t))
}.

Section Loading.
Context `{SparkNodeType.Parser} `{ClusterLoader}.

(** The body of the loop of [process_cluster_group_list], on the store and
    the list built so far. *)
Definition process_cluster_group (st : Store * list loc)
    (inst_grp : RawInstanceGroup.t) : result (Store * list loc) :=
  let '(σ, instance_group_list) := st in
  id ← or_raise KeyError (RawInstanceGroup.Id inst_grp);
  instance_type ← or_raise KeyError (RawInstanceGroup.InstanceType inst_grp);
  count ← or_raise KeyError (RawInstanceGroup.RequestedInstanceCount inst_grp);
  market ← or_raise KeyError (RawInstanceGroup.Market inst_grp);
  group_type ← or_raise KeyError (RawInstanceGroup.InstanceGroupType inst_grp);
  let inst_group := new_InstanceGroup id (Some instance_type) count market group_type in
  let '(l, σ) := alloc_group inst_group σ in
  Ok (σ, instance_group_list ++ [l]).

Definition process_cluster_group_list (σ : Store)
    (inst_groups : list RawInstanceGroup.t) : result (Store * list loc) :=
  foldM process_cluster_group inst_groups (σ, []).

(** The body of the loop of [__create_ec2_list_by_group]. *)
Definition create_ec2_instance (group_obj : option loc) (st : Store * list loc)
    (raw_inst : RawInstance.t) : result (Store * list loc) :=
  let '(σ, ec2_instances) := st in
  status ← or_raise KeyError (RawInstance.Status raw_inst);
  parsed_state ← or_raise KeyError status;
  id ← or_raise KeyError (RawInstance.Id raw_inst);
  ec2_instance_id ← or_raise KeyError (RawInstance.Ec2InstanceId raw_inst);
  dns_name ← or_raise KeyError (RawInstance.PublicDnsName raw_inst);
  let ec2_instance :=
    Ec2Instance.mk id ec2_instance_id (Some dns_name) group_obj
      (ClusterState_fromstring parsed_state) in
  let '(l, σ) := alloc_instance ec2_instance σ in
  Ok (σ, ec2_instances ++ [l]).

(** [group_arg] is an [InstanceGroup] object or a group id. *)
Definition __create_ec2_list_by_group (σ : Store) (self : EMRCluster.t)
    (group_arg : loc + string) : result (Store * list loc) :=
  '(group_obj, group_id) ←
    match group_arg with
    | inl l => grp ← lookup_group σ l; Ok (Some l, InstanceGroup.id grp)
    | inr group_id => Ok (None, group_id)
    end;
  let query_args := [("instance-group-id", group_id)] in
  instances_list ← list_cluster_instances self query_args;
  instances_list ← or_raise TypeError instances_list;
  foldM (create_ec2_instance group_obj) instances_list (σ, []).

(** The body of [for curr_group in self.instance_groups]. *)
Definition init_nodes_group (st : Store * EMRCluster.t) (curr_group : loc)
  : result (Store * EMRCluster.t) :=
  let '(σ, self) := st in
  '(σ, instances_list) ← __create_ec2_list_by_group σ self (inl curr_group);
  ec2_instances ← or_raise AttributeError (EMRCluster.ec2_instances self);
  Ok (σ, EMRCluster.set_ec2_instances (Some (ec2_instances ++ instances_list)) self).

(** [EMRCluster._init_nodes]; [inst_grps] is what
    [self.props.get_value('InstanceGroups')] yields. *)
Definition _init_nodes (inst_grps : result (list RawInstanceGroup.t)) (σ : Store)
    (self : EMRCluster.t) : result (Store * EMRCluster.t) :=
  inst_grps ← inst_grps;
  '(σ, instance_groups) ← process_cluster_group_list σ inst_grps;
  let self := EMRCluster.set_instance_groups (Some instance_groups) self in
  let self := EMRCluster.set_ec2_instances (Some []) self in
  '(σ, self) ← foldM init_nodes_group instance_groups (σ, self);
  nodes ← __create_node_from_instances σ self;
  Ok (σ, EMRCluster.set_nodes (Some nodes) self).

(** A raw group with all its keys, and the group object made of it. *)
Definition group_of_raw (raw : RawInstanceGroup.t) (grp : InstanceGroup.t) : Prop :=
  ∃ id instance_type count market group_type,
    raw = RawInstanceGroup.mk (Some id) (Some instance_type) (Some count)
            (Some market) (Some group_type) ∧
    grp = new_InstanceGroup id (Some instance_type) count market group_type.

(** A raw instance with all its keys, and the instance object made of it for
    the group [group_obj]. *)
Definition instance_of_raw (group_obj : option loc) (raw : RawInstance.t)
    (inst : Ec2Instance.t) : Prop :=
  ∃ id ec2_instance_id dns_name parsed_state,
    raw = RawInstance.mk (Some id) (Some ec2_instance_id) (Some dns_name)
            (Some (Some parsed_state)) ∧
    inst = Ec2Instance.mk id ec2_instance_id (Some dns_name) group_obj
             (ClusterState_fromstring parsed_state).

End Loading.

(** ** Examples for the driver and the loader *)

Module Examples.

(** A reader that follows the keys through nested dictionaries. *)
Fixpoint lookup_path (v : pyval) (keys : list string) : option pyval :=
  match keys with
  | [] => Some v
  | k :: keys' =>
      match v with
      | PDict d => v' ← dict_get d k; lookup_path v' keys'
      | _ => None
      end
  end.

Definition reader : PropsReader :=
  {| get_value c keys := or_raise KeyError (lookup_path (props c) keys);
     get_value_silent c keys := default PNone (lookup_path (props c) keys);
     json_dumps v := match v with PStr s => s | _ => "{}" end |}.

Definition gpu_devices : GpuDevices :=
  {| GpuDevice := string;
     GpuDevice_fromstring name :=
       match name with PStr s => Ok s | _ => Err AttributeError end |}.

(** The description of a cluster inside its envelope. *)
Definition cluster_props : pyval :=
  PDict
    [("Id", PStr "j-1");
     ("Configurations",
      PList
        [PDict [("Classification", PStr "spark-defaults");
                ("Properties", PDict [("spark.eventLog.dir", PStr "s3://logs/a")])];
         PDict [("Classification", PStr "yarn-site")];
         PDict [("Classification", PStr "spark-env");
                ("Properties", PDict [("spark.executor.cores", PStr "4")])]])].

Definition described : PropsContainer :=
  mkProps (PDict [("Cluster", cluster_props)]).

(** The description of a machine type with two accelerators. *)
Definition machine : PropsContainer :=
  mkProps
    (PDict
       [("GpuInfo",
         PDict
           [("Gpus",
             PList
               [PDict [("Name", PStr "A10G"); ("Count", PInt 1);
                       ("MemoryInfo", PDict [("SizeInMiB", PInt 24576)])];
                PDict [("Name", PStr "T4")]])])]).

Definition commands : SysCommands :=
  {| run_sys_cmd cmd :=
       if String.prefix "aws emr list-clusters" cmd then Return (PStr "[{...}]")
       else Return (PStr "{...}");
     json_loads _ := Return (PList [PDict [("Id", PStr "j-1")]; PDict []]);
     JSONPropertiesContainer _ := Return described;
     py_str _ := "" |}.

(** The listing of the instances of the two groups of the scenario. *)
Definition raw_instance (n : string) : RawInstance.t :=
  RawInstance.mk (Some ("ci-" +:+ n)) (Some ("i-" +:+ n)) (Some ("ec2-" +:+ n))
    (Some (Some "RUNNING")).

Definition loader : ClusterLoader :=
  {| ClusterState_fromstring _ := ClusterState.RUNNING;
     list_cluster_instances _ query_args :=
       if decide (dict_get query_args "instance-group-id" = Some "ig-M")
       then Ok (Some [raw_instance "0"])
       else Ok (Some [raw_instance "1"; raw_instance "2"]) |}.

Definition raw_groups : list RawInstanceGroup.t :=
  [RawInstanceGroup.mk (Some "ig-M") (Some "m5.xlarge") (Some 1%Z) (Some "ON_DEMAND")
     (Some "MASTER");
   RawInstanceGroup.mk (Some "ig-C") (Some "r5.2xlarge") (Some 2%Z) (Some "ON_DEMAND")
     (Some "CORE")].

Definition raw_group_without_market : RawInstanceGroup.t :=
  RawInstanceGroup.mk (Some "ig-T") (Some "r5.2xlarge") (Some 2%Z) None (Some "TASK").

Definition empty_store : Store := mkStore [] [].

(** A store in which the second instance has no group. *)
Definition ungrouped_store : Store :=
  mkStore [Scenario.master_group]
    [Scenario.instance "0" 0%nat;
     Ec2Instance.mk "ci-1" "i-1" (Some "ec2-1") None ClusterState.RUNNING].

Definition ungrouped : EMRCluster.t :=
  EMRCluster.mk (Some "cluster") (Some "j-3") None None (Some [0%nat])
    (Some [0; 1]%nat) None.

End Examples.


(** ** General facts on the error monad *)

Lemma bind_Ok {A B : Type} (r : result A) (k : A → result B) (b : B) :
  r ≫= k = Ok b ↔ ∃ a, r = Ok a ∧ k a = Ok b.
Proof.
  destruct r as [a|e]; simpl; split.
  - intros Hk. by exists a.
  - by intros (a' & [= <-] & Hk).
  - intros [=].
  - by intros (a' & [=] & _).
Qed.

Lemma or_raise_Ok {A : Type} (e : exn) (o : option A) (a : A) :
  or_raise e o = Ok a ↔ o = Some a.
Proof. destruct o; simpl; split; congruence. Qed.


(** ** The role classifier *)

Section PlatformFacts.
Context `{SparkNodeType.Parser}.

Lemma classifier_task_core (value : string) :
  upper value ∈ ["TASK"; "CORE"] →
  get_spark_node_type_fromstring value = SparkNodeType.WORKER.
Proof. intros Hin. unfold get_spark_node_type_fromstring. by rewrite decide_True. Qed.

Lemma classifier_other (value : string) :
  upper value ∉ ["TASK"; "CORE"] →
  get_spark_node_type_fromstring value = SparkNodeType.fromstring value.
Proof. intros Hin. unfold get_spark_node_type_fromstring. by rewrite decide_False. Qed.

End PlatformFacts.

(** C9.  The role classifier is a total function on labels that rejects
    none: with [SparkNodeType.fromstring] as the specification describes it,
    the labels of one closed list, [master_variants], map to the master role
    and every other label maps to the worker role, the worker-tier labels
    TASK and CORE in any letter case among them. *)
Theorem role_classifier_closed_master_open_worker (master_labels : list string) :
  let classify := @get_spark_node_type_fromstring (fromstring_of_spec master_labels) in
  (∀ value, classify value =
            if decide (value ∈ master_variants master_labels)
            then SparkNodeType.MASTER else SparkNodeType.WORKER) ∧
  (∀ value, value ∈ master_variants master_labels → value ∈ master_labels) ∧
  (∀ value, upper value ∈ ["TASK"; "CORE"] → classify value = SparkNodeType.WORKER).
Proof.
  intros classify. split; [|split].
  - intros value. unfold classify, get_spark_node_type_fromstring, master_variants.
    simpl. destruct (decide (upper value ∈ ["TASK"; "CORE"])) as [Hw|Hw].
    + rewrite decide_False; [done|]. rewrite list_elem_of_filter. tauto.
    + destruct (decide (value ∈ master_labels)) as [Hm|Hm].
      * rewrite decide_True; [done|]. by rewrite list_elem_of_filter.
      * rewrite decide_False; [done|]. rewrite list_elem_of_filter. tauto.
  - intros value. unfold master_variants. rewrite list_elem_of_filter. tauto.
  - intros value Hw. by apply (classifier_task_core (H := fromstring_of_spec master_labels)).
Qed.

(** C9 at the labels of the scenario. *)
Lemma role_classifier_closed_master_open_worker_witness :
  @get_spark_node_type_fromstring Scenario.parser "Master" = SparkNodeType.MASTER ∧
  @get_spark_node_type_fromstring Scenario.parser "Task" = SparkNodeType.WORKER ∧
  @get_spark_node_type_fromstring Scenario.parser "GATEWAY" = SparkNodeType.WORKER.
Proof.
  destruct (role_classifier_closed_master_open_worker ["MASTER"; "Master"; "master"])
    as (Hall & _ & Hworker).
  split_and!.
  - etrans; [exact (Hall "Master")|reflexivity].
  - apply (Hworker "Task"). vm_compute. apply list_elem_of_here.
  - etrans; [exact (Hall "GATEWAY")|reflexivity].
Defined.

(** ** Facts on lists *)

Lemma NoDup_fmap_count {A B : Type} `{EqDecision B} (f : A → B) (l : list A) (t : B) :
  NoDup (f <$> l) →
  length (filter (λ x, f x = t) l) = if decide (t ∈ f <$> l) then 1 else 0.
Proof.
  induction l as [|x l IH]; [done|].
  rewrite fmap_cons, NoDup_cons. intros [Hx Hl]. rewrite filter_cons.
  destruct (decide (f x = t)) as [<-|Hne]; simpl.
  - rewrite decide_True by apply list_elem_of_here.
    rewrite IH by done. by rewrite decide_False.
  - rewrite IH by done.
    destruct (decide (t ∈ f <$> l)) as [Hin|Hin].
    + rewrite decide_True; [done|]. by apply list_elem_of_further.
    + rewrite decide_False; [done|]. rewrite elem_of_cons.
      intros [->|?]; [by apply Hne|done].
Qed.

(** ** [find_matches_for_node] *)

Section FindMatchesFacts.
Context `{GpuMatcher}.

Lemma find_matches_for_node_nodes (self : EMRCluster.t) (nodes : Nodes.t) :
  EMRCluster.nodes self = Some nodes →
  find_matches_for_node self =
    Ok (fold_left find_matches_step (Nodes.WORKER nodes) (∅, [])).
Proof. intros Hn. unfold find_matches_for_node. by rewrite Hn. Qed.

Lemma find_matches_for_node_no_nodes (self : EMRCluster.t) :
  EMRCluster.nodes self = None → find_matches_for_node self = Err AttributeError.
Proof. intros Hn. unfold find_matches_for_node. by rewrite Hn. Qed.

(** The loop over the worker nodes, from any map and any call log: the
    nodes it submits are the first node of each instance type that is not
    in the map yet, and these types are what it adds to the map. *)
Lemma find_matches_fold (l : list EMRNode.t) (m0 : McMap) (c0 : list EMRNode.t) :
  ∃ (m : McMap) (new : list EMRNode.t),
    fold_left find_matches_step l (m0, c0) = (m, c0 ++ new) ∧
    new `sublist_of` l ∧
    NoDup (EMRNode.instance_type <$> new) ∧
    (∀ n, n ∈ new → m0 !! EMRNode.instance_type n = None) ∧
    (∀ n, n ∈ l → m0 !! EMRNode.instance_type n = None →
          EMRNode.instance_type n ∈ EMRNode.instance_type <$> new) ∧
    (∀ t v, m !! t = Some v ↔
            m0 !! t = Some v ∨
            (m0 !! t = None ∧
             ∃ n, n ∈ new ∧ EMRNode.instance_type n = t ∧
                  v = find_best_cpu_conversion n get_supported_gpus)).
Proof.
  revert m0 c0. induction l as [|a l IH]; intros m0 c0; simpl.
  - exists m0, []. rewrite app_nil_r. split_and!; try done.
    + constructor.
    + intros n Hn. by apply elem_of_nil in Hn.
    + intros n Hn. by apply elem_of_nil in Hn.
    + intros t v. split; [by left|]. intros [Hm|(_ & n & Hn & _)]; [done|].
      by apply elem_of_nil in Hn.
  - unfold find_matches_step at 2. simpl.
    destruct (m0 !! EMRNode.instance_type a) as [w|] eqn:Ha.
    + destruct (IH m0 c0) as (m & new & Hfold & Hsub & Hnd & Hfresh & Hcov & Hmap).
      exists m, new. split_and!; try done.
      * by apply sublist_cons.
      * intros n Hn Hnone. apply elem_of_cons in Hn as [->|Hn]; [congruence|].
        by apply Hcov.
    + destruct (IH (<[EMRNode.instance_type a :=
                      find_best_cpu_conversion a get_supported_gpus]> m0)
                   (c0 ++ [a]))
        as (m & new & Hfold & Hsub & Hnd & Hfresh & Hcov & Hmap).
      exists m, (a :: new). split_and!.
      * rewrite Hfold. by rewrite <- app_assoc.
      * by apply sublist_skip.
      * simpl. apply NoDup_cons. split; [|done].
        intros Hin. apply list_elem_of_fmap in Hin as (n & Heq & Hn).
        specialize (Hfresh n Hn). rewrite <- Heq in Hfresh.
        by rewrite lookup_insert_eq in Hfresh.
      * intros n Hn. apply elem_of_cons in Hn as [->|Hn]; [done|].
        specialize (Hfresh n Hn). by apply lookup_insert_None in Hfresh as [? _].
      * intros n Hn Hnone. simpl.
        destruct (decide (EMRNode.instance_type a = EMRNode.instance_type n)) as [Heq|Hne].
        { rewrite Heq. apply list_elem_of_here. }
        apply list_elem_of_further.
        apply elem_of_cons in Hn as [->|Hn]; [done|].
        apply Hcov; [done|]. by rewrite lookup_insert_ne.
      * intros t v. rewrite Hmap.
        destruct (decide (EMRNode.instance_type a = t)) as [<-|Hne].
        -- rewrite lookup_insert_eq. split.
           ++ intros [[= <-]|([=] & _)]. right. split; [done|].
              exists a. split_and!; try done. apply list_elem_of_here.
           ++ intros [Hm|(_ & n & Hn & Heq & ->)]; [congruence|].
              left. apply elem_of_cons in Hn as [->|Hn]; [done|].
              specialize (Hfresh n Hn). rewrite Heq in Hfresh.
              by rewrite lookup_insert_eq in Hfresh.
        -- rewrite lookup_insert_ne by done. split.
           ++ intros [Hm|(Hm & n & Hn & Heq & ->)]; [by left|].
              right. split; [done|]. exists n. split_and!; try done.
              by apply list_elem_of_further.
           ++ intros [Hm|(Hm & n & Hn & Heq & ->)]; [by left|].
              right. split; [done|]. exists n. split_and!; try done.
              apply elem_of_cons in Hn as [->|Hn]; [done|done].
Qed.

End FindMatchesFacts.

(** ** [__create_node_from_instances] *)

Section NodeFacts.

(** The loop of [__create_node_from_instances] builds one node per
    instance, in order, and appends the worker nodes to one list and all
    others to the other. *)
Lemma create_node_fold (σ : Store) (l : list loc) (ws ms : list EMRNode.t) :
  foldM (create_node_step σ) l (ws, ms) =
    ns ← mapM (node_of_instance σ) l;
    Ok (ws ++ filter (λ n, EMRNode.node_type n = SparkNodeType.WORKER) ns,
        ms ++ filter (λ n, EMRNode.node_type n ≠ SparkNodeType.WORKER) ns).
Proof.
  revert ws ms. induction l as [|i l IH]; intros ws ms; simpl.
  - by rewrite !app_nil_r.
  - destruct (node_of_instance σ i) as [n|e]; simpl; [|done].
    destruct (decide (EMRNode.node_type n = SparkNodeType.WORKER)) as [Hw|Hw];
      simpl; rewrite IH; destruct (mapM (node_of_instance σ) l) as [ns|e];
      simpl; try done.
    + rewrite filter_cons_True, filter_cons_False by tauto.
      by rewrite <- app_assoc.
    + rewrite filter_cons_False, filter_cons_True by tauto.
      by rewrite <- app_assoc.
Qed.

Lemma create_node_from_instances_eq (σ : Store) (self : EMRCluster.t) :
  __create_node_from_instances σ self =
    ec2_instances ← or_raise TypeError (EMRCluster.ec2_instances self);
    ns ← mapM (node_of_instance σ) ec2_instances;
    master ← or_raise IndexError
      (head (filter (λ n, EMRNode.node_type n ≠ SparkNodeType.WORKER) ns));
    Ok (Nodes.mk (filter (λ n, EMRNode.node_type n = SparkNodeType.WORKER) ns) master).
Proof.
  unfold __create_node_from_instances.
  destruct (EMRCluster.ec2_instances self) as [l|]; simpl; [|done].
  rewrite create_node_fold.
  by destruct (mapM (node_of_instance σ) l) as [ns|e].
Qed.

Lemma node_type_not_worker (n : EMRNode.t) :
  EMRNode.node_type n ≠ SparkNodeType.WORKER ↔
  EMRNode.node_type n = SparkNodeType.MASTER.
Proof. by destruct (EMRNode.node_type n). Qed.

(** A node view built by [__create_node_from_instances] keeps worker-role
    nodes, and only them, under [WORKER], and a master-role node under
    [MASTER]. *)
Lemma create_node_from_instances_roles (σ : Store) (self : EMRCluster.t)
    (nodes : Nodes.t) :
  __create_node_from_instances σ self = Ok nodes →
  Forall (λ n, EMRNode.node_type n = SparkNodeType.WORKER) (Nodes.WORKER nodes) ∧
  EMRNode.node_type (Nodes.MASTER nodes) = SparkNodeType.MASTER.
Proof.
  rewrite create_node_from_instances_eq. intros Hc.
  apply bind_Ok in Hc as (insts & _ & Hc).
  apply bind_Ok in Hc as (ns & _ & Hc).
  apply bind_Ok in Hc as (master & Hm & [= <-]). simpl.
  apply or_raise_Ok in Hm. split.
  - apply Forall_forall. intros n Hn. by apply list_elem_of_filter in Hn as [? _].
  - apply head_Some_elem_of in Hm. apply list_elem_of_filter in Hm as [Hm _].
    by apply node_type_not_worker.
Qed.

End NodeFacts.

(** ** The loops of [migrate_from_cluster] *)

Section LoopFacts.
Context `{SparkNodeType.Parser}.

Lemma group_converted_mono (mc : McMap) (n n' : nat) (σ σ' : Store) (l l' : loc) :
  group_converted mc n σ l l' →
  group_objs σ `prefix_of` group_objs σ' →
  (n' ≤ n)%nat →
  group_converted mc n' σ' l l'.
Proof.
  intros (grp & Hl & Hcase) Hpre Hn. exists grp. split.
  - by eapply prefix_lookup_Some.
  - destruct (decide (InstanceGroup.spark_grp_type grp = SparkNodeType.MASTER)); [done|].
    destruct (decide (new_instance_type_of mc grp = InstanceGroup.instance_type grp));
      [done|].
    destruct Hcase as [Hge Hnew]. split; [lia|]. by eapply prefix_lookup_Some.
Qed.

Lemma convert_group_inv (mc : McMap) (σ σ1 : Store) (cache cache1 : gmap string loc)
    (self self1 : EMRCluster.t) (l : loc) (acc : list loc) :
  convert_group mc (σ, cache, self) l = Ok (σ1, cache1, self1) →
  EMRCluster.instance_groups self = Some acc →
  ∃ l', self1 = EMRCluster.set_instance_groups (Some (acc ++ [l'])) self ∧
        instance_objs σ1 = instance_objs σ ∧
        group_objs σ `prefix_of` group_objs σ1 ∧
        group_converted mc (length (group_objs σ)) σ1 l l'.
Proof.
  unfold convert_group, lookup_group, append_instance_group. intros Hc Hacc.
  destruct (group_objs σ !! l) as [grp|] eqn:Hl; simpl in Hc; [|done].
  rewrite Hacc in Hc.
  destruct (decide (InstanceGroup.spark_grp_type grp = SparkNodeType.MASTER)) as [Hm|Hm].
  { simpl in Hc. injection Hc as <- <- <-. exists l. split_and!; try done.
    exists grp. split; [done|]. by rewrite decide_True. }
  destruct (decide (new_instance_type_of mc grp = InstanceGroup.instance_type grp))
    as [Ht|Ht].
  { simpl in Hc. injection Hc as <- <- <-. exists l. split_and!; try done.
    exists grp. split; [done|]. rewrite decide_False by done. by rewrite decide_True. }
  simpl in Hc. injection Hc as <- <- <-. exists (length (group_objs σ)). simpl.
  split_and!; try done.
  - by apply prefix_app_r.
  - exists grp. simpl. split; [by apply lookup_app_l_Some|].
    rewrite !decide_False by done. split; [done|].
    by rewrite lookup_app_r, Nat.sub_diag by done.
Qed.

Lemma convert_groups_inv (mc : McMap) (gs : list loc) (σ σ' : Store)
    (cache cache' : gmap string loc) (self self' : EMRCluster.t) (acc : list loc) :
  foldM (convert_group mc) gs (σ, cache, self) = Ok (σ', cache', self') →
  EMRCluster.instance_groups self = Some acc →
  ∃ news, self' = EMRCluster.set_instance_groups (Some (acc ++ news)) self ∧
          instance_objs σ' = instance_objs σ ∧
          group_objs σ `prefix_of` group_objs σ' ∧
          Forall2 (group_converted mc (length (group_objs σ)) σ') gs news.
Proof.
  revert σ cache self acc. induction gs as [|l gs IH]; intros σ cache self acc; simpl.
  - intros [= <- <- <-] Hacc. exists []. rewrite app_nil_r. split_and!; try done.
    destruct self. simpl in *. by subst.
  - intros Hc Hacc. apply bind_Ok in Hc as ([[σ1 cache1] self1] & Hstep & Hrest).
    destruct (convert_group_inv _ _ _ _ _ _ _ _ _ Hstep Hacc)
      as (l' & -> & Hi1 & Hp1 & Hconv).
    destruct (IH _ _ _ (acc ++ [l']) Hrest eq_refl) as (news & -> & Hi2 & Hp2 & Hall).
    exists (l' :: news). split_and!.
    + unfold EMRCluster.set_instance_groups. simpl. by rewrite <- app_assoc.
    + congruence.
    + by etrans.
    + constructor.
      * by eapply group_converted_mono.
      * eapply Forall2_impl; [exact Hall|]. intros x y Hxy.
        eapply group_converted_mono; [exact Hxy|done|]. by apply prefix_length.
Qed.

Lemma instance_converted_mono (cache : gmap string loc) (n n' : nat) (σ σ' : Store)
    (l l' : loc) :
  instance_converted cache n σ l l' →
  group_objs σ `prefix_of` group_objs σ' →
  instance_objs σ `prefix_of` instance_objs σ' →
  (n' ≤ n)%nat →
  instance_converted cache n' σ' l l'.
Proof.
  intros (inst & g & grp & Hl & Hg & Hgrp & Hge & Hnew) Hpg Hpi Hn.
  exists inst, g, grp. split_and!; try done.
  - by eapply prefix_lookup_Some.
  - by eapply prefix_lookup_Some.
  - lia.
  - by eapply prefix_lookup_Some.
Qed.

Lemma convert_instance_inv (cache : gmap string loc) (σ σ1 : Store)
    (self self1 : EMRCluster.t) (l : loc) (acc : list loc) :
  convert_instance cache (σ, self) l = Ok (σ1, self1) →
  EMRCluster.ec2_instances self = Some acc →
  ∃ l', self1 = EMRCluster.set_ec2_instances (Some (acc ++ [l'])) self ∧
        group_objs σ1 = group_objs σ ∧
        instance_objs σ `prefix_of` instance_objs σ1 ∧
        instance_converted cache (length (instance_objs σ)) σ1 l l'.
Proof.
  unfold convert_instance, lookup_instance, lookup_group, append_ec2_instance.
  intros Hc Hacc.
  destruct (instance_objs σ !! l) as [inst|] eqn:Hl; simpl in Hc; [|done].
  destruct (Ec2Instance.group inst) as [g|] eqn:Hg; simpl in Hc; [|done].
  destruct (group_objs σ !! g) as [grp|] eqn:Hgrp; simpl in Hc; [|done].
  rewrite Hacc in Hc. simpl in Hc. injection Hc as <- <-.
  exists (length (instance_objs σ)). simpl. split_and!; try done.
  - by apply prefix_app_r.
  - exists inst, g, grp. simpl. split_and!; try done.
    + by apply lookup_app_l_Some.
    + rewrite lookup_app_r, Nat.sub_diag by done. simpl. by rewrite Hg.
Qed.

Lemma convert_instances_inv (cache : gmap string loc) (insts : list loc)
    (σ σ' : Store) (self self' : EMRCluster.t) (acc : list loc) :
  foldM (convert_instance cache) insts (σ, self) = Ok (σ', self') →
  EMRCluster.ec2_instances self = Some acc →
  ∃ news, self' = EMRCluster.set_ec2_instances (Some (acc ++ news)) self ∧
          group_objs σ' = group_objs σ ∧
          instance_objs σ `prefix_of` instance_objs σ' ∧
          Forall2 (instance_converted cache (length (instance_objs σ)) σ') insts news.
Proof.
  revert σ self acc. induction insts as [|l insts IH]; intros σ self acc; simpl.
  - intros [= <- <-] Hacc. exists []. rewrite app_nil_r. split_and!; try done.
    destruct self. simpl in *. by subst.
  - intros Hc Hacc. apply bind_Ok in Hc as ([σ1 self1] & Hstep & Hrest).
    destruct (convert_instance_inv _ _ _ _ _ _ _ Hstep Hacc)
      as (l' & -> & Hg1 & Hp1 & Hconv).
    destruct (IH _ _ (acc ++ [l']) Hrest eq_refl) as (news & -> & Hg2 & Hp2 & Hall).
    exists (l' :: news). split_and!.
    + unfold EMRCluster.set_ec2_instances. simpl. by rewrite <- app_assoc.
    + congruence.
    + by etrans.
    + constructor.
      * eapply instance_converted_mono; [exact Hconv| |done|done].
        by rewrite Hg2.
      * eapply Forall2_impl; [exact Hall|]. intros x y Hxy.
        eapply instance_converted_mono; [exact Hxy|done|done|].
        by apply prefix_length.
Qed.

End LoopFacts.

(** ** [migrate_from_cluster] as a whole *)

Section MigrationFacts.
Context `{SparkNodeType.Parser} `{GpuMatcher}.

(** Everything a successful migration has done, in terms of the source
    cluster and the store it started from. *)
Lemma migrate_from_cluster_inv (self orig : EMRCluster.t) (σ : Store)
    (run : MigrationRun) :
  migrate_from_cluster self orig σ = Ok run →
  ∃ nodes0 gs insts cache news_g news_i nodes',
    EMRCluster.nodes orig = Some nodes0 ∧
    EMRCluster.instance_groups orig = Some gs ∧
    EMRCluster.ec2_instances orig = Some insts ∧
    let r := fold_left find_matches_step (Nodes.WORKER nodes0) (∅, []) in
    gpu_cluster_ob run =
      EMRCluster.mk (EMRCluster.name orig) (EMRCluster.uuid orig)
        (EMRCluster.zone orig) (EMRCluster.state orig)
        (Some news_g) (Some news_i) (Some nodes') ∧
    matcher_calls run = r.2 ∧
    ctxt_notes run = (if decide (r.1 = ∅) then [] else [("nodeConversions", r.1)]) ∧
    extends σ (heap run) ∧
    Forall2 (group_converted r.1 (length (group_objs σ)) (heap run)) gs news_g ∧
    Forall2 (instance_converted cache (length (instance_objs σ)) (heap run))
      insts news_i ∧
    __create_node_from_instances (heap run) (gpu_cluster_ob run) = Ok nodes'.
Proof.
  unfold migrate_from_cluster. intros Hm.
  apply bind_Ok in Hm as ([mc calls] & Hfm & Hm).
  destruct (EMRCluster.nodes orig) as [nodes0|] eqn:Hnodes;
    [|by rewrite find_matches_for_node_no_nodes in Hfm].
  rewrite (find_matches_for_node_nodes _ _ Hnodes) in Hfm. injection Hfm as Hfm.
  apply bind_Ok in Hm as (gs & Hgs & Hm). apply or_raise_Ok in Hgs.
  apply bind_Ok in Hm as ([[σ1 cache] self1] & Hgl & Hm).
  apply bind_Ok in Hm as (insts & Hinsts & Hm). apply or_raise_Ok in Hinsts.
  apply bind_Ok in Hm as ([σ2 self2] & Hil & Hm).
  apply bind_Ok in Hm as (nodes' & Hcn & [= <-]).
  destruct (convert_groups_inv _ _ _ _ _ _ _ _ [] Hgl eq_refl)
    as (news_g & -> & Hi1 & Hp1 & Hall1).
  destruct (convert_instances_inv _ _ _ _ _ _ [] Hil eq_refl)
    as (news_i & -> & Hg2 & Hp2 & Hall2).
  exists nodes0, gs, insts, cache, news_g, news_i, nodes'. simpl.
  rewrite Hfm. simpl. split_and!; try done.
  - split; simpl; [by rewrite Hg2 | by rewrite <- Hi1].
  - eapply Forall2_impl; [exact Hall1|]. intros x y Hxy.
    eapply group_converted_mono; [exact Hxy| |done]. by rewrite Hg2.
  - by rewrite <- Hi1.
Qed.

End MigrationFacts.

(** ** A migration of a well-formed cluster succeeds *)

Section TotalityFacts.
Context `{SparkNodeType.Parser} `{GpuMatcher}.







End TotalityFacts.

(** The source cluster of the scenario is well formed. *)
Lemma source_well_formed_in_scenario :
  well_formed Scenario.store Scenario.source.
Proof.
  exists Scenario.source_nodes, [0; 1]%nat, [0; 1; 2; 3]%nat.
  split_and!; try reflexivity.
  - repeat constructor; by eexists.
  - repeat constructor; eexists _, _;
      (split_and!; [reflexivity|reflexivity|set_solver]).
  - apply Exists_cons_hd. eexists _, _, _. split_and!; reflexivity.
Defined.

(** ** The substitution cache *)

Section CacheFacts.
Context `{SparkNodeType.Parser} `{GpuMatcher}.

(** C1.  During one migration the matcher is invoked exactly once for each
    distinct instance type among the worker nodes of the source, however
    many nodes share the type, and for nothing else: the calls are worker
    nodes of the source taken in order, the master entry of the node view is
    never submitted, and when the view was built by
    [__create_node_from_instances] no submitted node has the master role. *)
Theorem matcher_invoked_once_per_worker_type (orig : EMRCluster.t) (nodes : Nodes.t) :
  EMRCluster.nodes orig = Some nodes →
  ∃ (mc_map : McMap) (calls : list EMRNode.t),
    find_matches_for_node orig = Ok (mc_map, calls) ∧
    (∀ self σ run, migrate_from_cluster self orig σ = Ok run →
                   matcher_calls run = calls) ∧
    calls `sublist_of` Nodes.WORKER nodes ∧
    (∀ t, length (filter (λ n, EMRNode.instance_type n = t) calls) =
          if decide (t ∈ EMRNode.instance_type <$> Nodes.WORKER nodes) then 1 else 0) ∧
    (∀ σ c, __create_node_from_instances σ c = Ok nodes →
            Forall (λ n, EMRNode.node_type n ≠ SparkNodeType.MASTER) calls).
Proof.
  intros Hnodes.
  destruct (find_matches_fold (Nodes.WORKER nodes) ∅ [])
    as (m & new & Hfold & Hsub & Hnd & _ & Hcov & _).
  simpl in Hfold. exists m, new. split_and!.
  - rewrite (find_matches_for_node_nodes _ _ Hnodes). by rewrite Hfold.
  - intros self σ run Hrun.
    destruct (migrate_from_cluster_inv _ _ _ _ Hrun)
      as (nodes0 & gs & insts & cache & news_g & news_i & nodes' & Hn0 & _ & _ & Hrest).
    simpl in Hrest. destruct Hrest as (_ & Hcalls & _).
    rewrite Hnodes in Hn0. injection Hn0 as <-. by rewrite Hcalls, Hfold.
  - done.
  - intros t. rewrite NoDup_fmap_count by done.
    destruct (decide (t ∈ EMRNode.instance_type <$> new)) as [Hin|Hin].
    + rewrite decide_True; [done|]. apply list_elem_of_fmap in Hin as (n & -> & Hn).
      apply list_elem_of_fmap_2. by eapply sublist_subseteq.
    + rewrite decide_False; [done|]. intros Hw. apply Hin.
      apply list_elem_of_fmap in Hw as (n & -> & Hn). apply Hcov; [done|].
      apply lookup_empty.
  - intros σ c Hc. apply create_node_from_instances_roles in Hc as [Hw _].
    apply Forall_forall. intros n Hn.
    rewrite Forall_forall in Hw. rewrite (Hw n); [done|]. by eapply sublist_subseteq.
Qed.

End CacheFacts.

(** The node view of the scenario: three worker nodes of one type, one call. *)
Lemma matcher_invoked_once_per_worker_type_witness :
  ∃ (mc_map : McMap) (calls : list EMRNode.t),
    @find_matches_for_node Scenario.matcher_g5 Scenario.source = Ok (mc_map, calls) ∧
    length (filter (λ n, EMRNode.instance_type n = Some "r5.2xlarge") calls) = 1.
Proof.
  destruct (@matcher_invoked_once_per_worker_type Scenario.parser
              Scenario.matcher_g5 Scenario.source Scenario.source_nodes eq_refl)
    as (mc_map & calls & Hfind & _ & _ & Hcount & _).
  exists mc_map, calls. split; [exact Hfind|]. rewrite Hcount. reflexivity.
Defined.


(** ** The change report *)

Section ReportFacts.
Context `{SparkNodeType.Parser} `{GpuMatcher}.

(** C3, as the code has it.  The change report is the substitution cache
    itself: it has one entry for each distinct instance type among the
    worker nodes of the source, holding the answer of the matcher for the
    node it was asked about, whether or not that answer differs from the
    type; it is handed to the notifier, once, exactly when the source has a
    worker node. *)
Theorem change_report_is_substitution_cache (self orig : EMRCluster.t) (σ : Store)
    (run : MigrationRun) (nodes : Nodes.t) :
  migrate_from_cluster self orig σ = Ok run →
  EMRCluster.nodes orig = Some nodes →
  ∃ mc : McMap,
    find_matches_for_node orig = Ok (mc, matcher_calls run) ∧
    ctxt_notes run =
      (if decide (Nodes.WORKER nodes = []) then [] else [("nodeConversions", mc)]) ∧
    (∀ t, is_Some (mc !! t) ↔ t ∈ EMRNode.instance_type <$> Nodes.WORKER nodes) ∧
    (∀ t v, mc !! t = Some v ↔
            ∃ n, n ∈ matcher_calls run ∧ EMRNode.instance_type n = t ∧
                 v = find_best_cpu_conversion n get_supported_gpus).
Proof.
  intros Hrun Hnodes.
  destruct (migrate_from_cluster_inv _ _ _ _ Hrun)
    as (nodes0 & gs & insts & cache & news_g & news_i & nodes' & Hn0 & _ & _ & Hrest).
  simpl in Hrest. destruct Hrest as (_ & Hcalls & Hnotes & _).
  rewrite Hnodes in Hn0. injection Hn0 as <-.
  destruct (find_matches_fold (Nodes.WORKER nodes) ∅ [])
    as (m & new & Hfold & Hsub & Hnd & _ & Hcov & Hmap).
  simpl in Hfold. rewrite Hfold in Hcalls, Hnotes. simpl in Hcalls, Hnotes.
  assert (Hdom : ∀ t, is_Some (m !! t) ↔ t ∈ EMRNode.instance_type <$> Nodes.WORKER nodes).
  { intros t. split.
    - intros [v Hv]. apply Hmap in Hv as [Hv|(_ & n & Hn & <- & _)].
      + by rewrite lookup_empty in Hv.
      + apply list_elem_of_fmap_2. by eapply sublist_subseteq.
    - intros Hin. apply list_elem_of_fmap in Hin as (n & -> & Hn).
      specialize (Hcov n Hn (lookup_empty _)).
      apply list_elem_of_fmap in Hcov as (n' & Heq & Hn').
      exists (find_best_cpu_conversion n' get_supported_gpus). apply Hmap.
      right. split; [apply lookup_empty|]. by exists n'. }
  exists m. split_and!.
  - rewrite (find_matches_for_node_nodes _ _ Hnodes). by rewrite Hfold, Hcalls.
  - rewrite Hnotes. destruct (Nodes.WORKER nodes) as [|n ws] eqn:Hws.
    + simpl in Hfold. injection Hfold as <- _. by rewrite !decide_True.
    + rewrite (decide_False (P := n :: ws = [])) by done.
      rewrite decide_False; [done|]. intros ->.
      destruct (proj2 (Hdom (EMRNode.instance_type n))) as [v Hv].
      * rewrite fmap_cons. apply list_elem_of_here.
      * by rewrite lookup_empty in Hv.
  - exact Hdom.
  - intros t v. rewrite Hmap, Hcalls, lookup_empty. split.
    + by intros [?|[_ ?]].
    + intros ?. by right.
Qed.

End ReportFacts.

(** The scenario with the matcher that maps r5.2xlarge to g5.2xlarge. *)
Lemma change_report_is_substitution_cache_witness :
  ∃ (run : MigrationRun) (mc : McMap),
    @migrate_cluster_to_gpu Scenario.parser Scenario.matcher_g5
      Scenario.source Scenario.store = Ok run ∧
    ctxt_notes run = [("nodeConversions", mc)] ∧
    ∀ t, is_Some (mc !! t) ↔ t ∈ [Some "r5.2xlarge"; Some "r5.2xlarge"; Some "r5.2xlarge"].
Proof.
  assert (∃ run, @migrate_cluster_to_gpu Scenario.parser Scenario.matcher_g5
                   Scenario.source Scenario.store = Ok run) as [run Hrun]
    by (eexists; vm_compute; reflexivity).
  destruct (@change_report_is_substitution_cache Scenario.parser Scenario.matcher_g5
              EMRCluster.init Scenario.source Scenario.store run Scenario.source_nodes
              Hrun eq_refl) as (mc & _ & Hnotes & Hdom & _).
  exists run, mc. split; [exact Hrun|]. split; [exact Hnotes|exact Hdom].
Defined.

(** C3 does not hold as stated when the matcher answers with the type it
    was asked about: no group changes, and yet the notifier is invoked with a
    report that has an entry for that type. *)
Lemma change_report_lists_unchanged_type :
  ∃ (run : MigrationRun) (mc : McMap),
    @migrate_cluster_to_gpu Scenario.parser Scenario.matcher_same
      Scenario.source Scenario.store = Ok run ∧
    EMRCluster.instance_groups (gpu_cluster_ob run) =
      EMRCluster.instance_groups Scenario.source ∧
    group_objs (heap run) = group_objs Scenario.store ∧
    ctxt_notes run = [("nodeConversions", mc)] ∧
    mc !! Some "r5.2xlarge" = Some (Some "r5.2xlarge").
Proof.
  eexists. eexists. split; [vm_compute; reflexivity|]. split_and!; reflexivity.
Qed.

(** C2 at the scenario in which the matcher finds no match: the worker group
    is not carried over; its place in the migrated cluster is taken by a new
    group whose instance type is [None]. *)
Lemma no_match_creates_group_without_type :
  ∃ run : MigrationRun,
    @migrate_cluster_to_gpu Scenario.parser Scenario.matcher_none
      Scenario.source Scenario.store = Ok run ∧
    EMRCluster.instance_groups Scenario.source = Some [0; 1]%nat ∧
    EMRCluster.instance_groups (gpu_cluster_ob run) = Some [0; 2]%nat ∧
    group_objs (heap run) !! 1%nat = Some Scenario.core_group ∧
    group_objs (heap run) !! 2%nat =
      Some (InstanceGroup.mk "ig-C" None 3 "ON_DEMAND" "CORE" SparkNodeType.WORKER).
Proof.
  eexists. split; [vm_compute; reflexivity|]. split_and!; reflexivity.
Qed.

(** ** What a migration keeps and what it rebuilds *)

Section FrameFacts.
Context `{SparkNodeType.Parser} `{GpuMatcher}.

Lemma role_not_master (r : SparkNodeType.t) :
  r ≠ SparkNodeType.MASTER → r = SparkNodeType.WORKER.
Proof. by destruct r. Qed.

(** A worker-role group whose type the matcher was not asked about, or for
    which it answered with that same type, is carried over by reference. *)
Lemma migration_keeps_group_of_same_type (self orig : EMRCluster.t) (σ : Store)
    (run : MigrationRun) (gs : list loc) (mc : McMap) (calls : list EMRNode.t) :
  migrate_from_cluster self orig σ = Ok run →
  EMRCluster.instance_groups orig = Some gs →
  find_matches_for_node orig = Ok (mc, calls) →
  ∃ news_g,
    EMRCluster.instance_groups (gpu_cluster_ob run) = Some news_g ∧
    Forall2 (λ l l', ∀ grp,
               group_objs σ !! l = Some grp →
               mc !! InstanceGroup.instance_type grp = None ∨
               mc !! InstanceGroup.instance_type grp =
                 Some (InstanceGroup.instance_type grp) →
               l' = l) gs news_g.
Proof.
  intros Hrun Hgs Hfm.
  destruct (migrate_from_cluster_inv _ _ _ _ Hrun)
    as (nodes0 & gs' & insts & cache & news_g & news_i & nodes' & Hn0 & Hgs' & _ & Hrest).
  simpl in Hrest. destruct Hrest as (Hgpu & _ & _ & [Hext _] & Hall & _).
  rewrite Hgs in Hgs'. injection Hgs' as <-.
  rewrite (find_matches_for_node_nodes _ _ Hn0) in Hfm. injection Hfm as Hfm.
  rewrite Hfm in Hall. simpl in Hall.
  exists news_g. split; [by rewrite Hgpu|].
  eapply Forall2_impl; [exact Hall|]. intros l l' (grp0 & Hl0 & Hcase) grp Hl Hmc.
  pose proof (prefix_lookup_Some _ _ _ _ Hl Hext) as Hl'.
  rewrite Hl0 in Hl'. injection Hl' as ->.
  destruct (decide (InstanceGroup.spark_grp_type grp = SparkNodeType.MASTER)); [done|].
  rewrite decide_True in Hcase; [done|].
  unfold new_instance_type_of. by destruct Hmc as [-> | ->].
Qed.

(** A worker-role group for whose type the matcher answered [None] is
    replaced by a new group that has no instance type. *)
Lemma migration_drops_type_without_match (self orig : EMRCluster.t) (σ : Store)
    (run : MigrationRun) (gs : list loc) (mc : McMap) (calls : list EMRNode.t) :
  migrate_from_cluster self orig σ = Ok run →
  EMRCluster.instance_groups orig = Some gs →
  find_matches_for_node orig = Ok (mc, calls) →
  ∃ news_g,
    EMRCluster.instance_groups (gpu_cluster_ob run) = Some news_g ∧
    Forall2 (λ l l', ∀ grp t,
               group_objs σ !! l = Some grp →
               InstanceGroup.spark_grp_type grp = SparkNodeType.WORKER →
               InstanceGroup.instance_type grp = Some t →
               mc !! Some t = Some None →
               (length (group_objs σ) ≤ l')%nat ∧
               ∃ grp', group_objs (heap run) !! l' = Some grp' ∧
                       InstanceGroup.instance_type grp' = None ∧
                       InstanceGroup.id grp' = InstanceGroup.id grp) gs news_g.
Proof.
  intros Hrun Hgs Hfm.
  destruct (migrate_from_cluster_inv _ _ _ _ Hrun)
    as (nodes0 & gs' & insts & cache & news_g & news_i & nodes' & Hn0 & Hgs' & _ & Hrest).
  simpl in Hrest. destruct Hrest as (Hgpu & _ & _ & [Hext _] & Hall & _).
  rewrite Hgs in Hgs'. injection Hgs' as <-.
  rewrite (find_matches_for_node_nodes _ _ Hn0) in Hfm. injection Hfm as Hfm.
  rewrite Hfm in Hall. simpl in Hall.
  exists news_g. split; [by rewrite Hgpu|].
  eapply Forall2_impl; [exact Hall|].
  intros l l' (grp0 & Hl0 & Hcase) grp t Hl Hw Ht Hmc.
  pose proof (prefix_lookup_Some _ _ _ _ Hl Hext) as Hl'.
  rewrite Hl0 in Hl'. injection Hl' as ->.
  assert (new_instance_type_of mc grp = None) as Hnew.
  { unfold new_instance_type_of. by rewrite Ht, Hmc. }
  rewrite decide_False in Hcase by (by rewrite Hw).
  rewrite decide_False in Hcase by (by rewrite Hnew, Ht).
  destruct Hcase as [Hge Hobj]. split; [done|]. eexists. split; [exact Hobj|].
  by rewrite Hnew.
Qed.

(** C4, as the code has it.  A migration carries every master-role group
    over by reference and changes no object of the source, so the master
    groups keep all their fields; a group whose instance type differs from
    the source's has the worker role.  Every master-role instance is
    rebuilt as a new object with the identifiers, the state and the very
    group of the source instance, and without its DNS name. *)
Theorem master_groups_shared_master_instances_rebuilt (self orig : EMRCluster.t)
    (σ : Store) (run : MigrationRun) (gs insts : list loc) :
  migrate_from_cluster self orig σ = Ok run →
  EMRCluster.instance_groups orig = Some gs →
  EMRCluster.ec2_instances orig = Some insts →
  extends σ (heap run) ∧
  ∃ news_g news_i,
    EMRCluster.instance_groups (gpu_cluster_ob run) = Some news_g ∧
    EMRCluster.ec2_instances (gpu_cluster_ob run) = Some news_i ∧
    Forall2 (λ l l', ∀ grp,
               group_objs σ !! l = Some grp →
               (InstanceGroup.spark_grp_type grp = SparkNodeType.MASTER → l' = l) ∧
               (∀ grp', group_objs (heap run) !! l' = Some grp' →
                        InstanceGroup.instance_type grp' ≠ InstanceGroup.instance_type grp →
                        InstanceGroup.spark_grp_type grp = SparkNodeType.WORKER))
            gs news_g ∧
    Forall2 (λ l l', ∀ inst g grp,
               instance_objs σ !! l = Some inst →
               Ec2Instance.group inst = Some g →
               group_objs σ !! g = Some grp →
               InstanceGroup.spark_grp_type grp = SparkNodeType.MASTER →
               (length (instance_objs σ) ≤ l')%nat ∧
               instance_objs (heap run) !! l' =
                 Some (Ec2Instance.mk (Ec2Instance.id inst)
                         (Ec2Instance.ec2_instance_id inst) None (Some g)
                         (Ec2Instance.state inst)))
            insts news_i.
Proof.
  intros Hrun Hgs Hinsts.
  destruct (migrate_from_cluster_inv _ _ _ _ Hrun)
    as (nodes0 & gs' & insts' & cache & news_g & news_i & nodes' & _ & Hgs' & Hinsts'
        & Hrest).
  simpl in Hrest. destruct Hrest as (Hgpu & _ & _ & Hext & Hallg & Halli & _).
  rewrite Hgs in Hgs'. injection Hgs' as <-.
  rewrite Hinsts in Hinsts'. injection Hinsts' as <-.
  split; [done|]. destruct Hext as [Hextg Hexti].
  exists news_g, news_i. rewrite Hgpu. simpl. split_and!; try done.
  - eapply Forall2_impl; [exact Hallg|]. intros l l' (grp0 & Hl0 & Hcase) grp Hl.
    pose proof (prefix_lookup_Some _ _ _ _ Hl Hextg) as Hl'.
    rewrite Hl0 in Hl'. injection Hl' as ->.
    destruct (decide (InstanceGroup.spark_grp_type grp = SparkNodeType.MASTER))
      as [Hm|Hm].
    + subst l'. split; [done|]. intros grp' Hgrp' Hne. congruence.
    + split; [done|]. intros _ _ _. by apply role_not_master.
  - eapply Forall2_impl; [exact Halli|].
    intros l l' (inst0 & g0 & grp0 & Hl0 & Hg0 & Hgrp0 & Hge & Hnew) inst g grp
      Hl Hg Hgrp Hm.
    pose proof (prefix_lookup_Some _ _ _ _ Hl Hexti) as Hl'.
    rewrite Hl0 in Hl'. injection Hl' as ->.
    rewrite Hg in Hg0. injection Hg0 as <-.
    pose proof (prefix_lookup_Some _ _ _ _ Hgrp Hextg) as Hgrp'.
    rewrite Hgrp0 in Hgrp'. injection Hgrp' as ->.
    split; [done|]. rewrite Hnew. rewrite decide_True by done. by rewrite Hg.
Qed.



End FrameFacts.

(** The scenario with the matcher that maps r5.2xlarge to g5.2xlarge: the
    master group stays at its address. *)
Lemma master_groups_shared_master_instances_rebuilt_witness :
  ∃ (run : MigrationRun) (news_g : list loc),
    @migrate_cluster_to_gpu Scenario.parser Scenario.matcher_g5
      Scenario.source Scenario.store = Ok run ∧
    extends Scenario.store (heap run) ∧
    EMRCluster.instance_groups (gpu_cluster_ob run) = Some news_g ∧
    news_g !! 0%nat = Some 0%nat.
Proof.
  assert (∃ run, @migrate_cluster_to_gpu Scenario.parser Scenario.matcher_g5
                   Scenario.source Scenario.store = Ok run) as [run Hrun]
    by (eexists; vm_compute; reflexivity).
  destruct (@master_groups_shared_master_instances_rebuilt Scenario.parser
              Scenario.matcher_g5 EMRCluster.init Scenario.source Scenario.store run
              [0; 1]%nat [0; 1; 2; 3]%nat Hrun eq_refl eq_refl)
    as (Hext & news_g & news_i & Hg & _ & Hall & _).
  exists run, news_g. split_and!; try done.
  destruct news_g as [|l' news_g]; [by apply Forall2_cons_nil_inv in Hall|].
  apply Forall2_cons_1 in Hall as [Hhead _].
  destruct (Hhead Scenario.master_group eq_refl) as [Hsame _].
  by rewrite Hsame.
Defined.

(** C4 does not hold as stated for the master instance of the scenario:
    the migrated cluster holds another object in its place, and that object
    has no DNS name while the source instance has one. *)
Lemma master_instance_not_field_identical :
  ∃ (run : MigrationRun) (grp : InstanceGroup.t) (inst inst' : Ec2Instance.t),
    @migrate_cluster_to_gpu Scenario.parser Scenario.matcher_g5
      Scenario.source Scenario.store = Ok run ∧
    EMRCluster.ec2_instances Scenario.source = Some [0; 1; 2; 3]%nat ∧
    EMRCluster.ec2_instances (gpu_cluster_ob run) = Some [4; 5; 6; 7]%nat ∧
    instance_objs (heap run) !! 0%nat = Some inst ∧
    instance_objs (heap run) !! 4%nat = Some inst' ∧
    Ec2Instance.group inst = Some 0%nat ∧
    group_objs (heap run) !! 0%nat = Some grp ∧
    InstanceGroup.spark_grp_type grp = SparkNodeType.MASTER ∧
    Ec2Instance.dns_name inst = Some "ec2-0" ∧
    Ec2Instance.dns_name inst' = None ∧
    inst' ≠ inst.
Proof.
  eexists. eexists. eexists. eexists. split; [vm_compute; reflexivity|].
  split_and!; try reflexivity. discriminate.
Qed.



(** ** The node view *)

Section NodeViewFacts.

Lemma filter_master_not_worker (ns : list EMRNode.t) :
  filter (λ n, EMRNode.node_type n ≠ SparkNodeType.WORKER) ns =
  filter (λ n, EMRNode.node_type n = SparkNodeType.MASTER) ns.
Proof. apply list_filter_iff. intros n. apply node_type_not_worker. Qed.

(** C8, as the code has it.  When every instance of the collection has a
    group, building the node view raises [IndexError] if no node has the
    master role, and otherwise succeeds, however many master-role nodes
    there are: the first of them becomes the master node and the worker-role
    nodes, in order, become the worker nodes. *)
Theorem node_view_needs_a_master (σ : Store) (self : EMRCluster.t)
    (insts : list loc) (ns : list EMRNode.t) :
  EMRCluster.ec2_instances self = Some insts →
  mapM (node_of_instance σ) insts = Ok ns →
  match filter (λ n, EMRNode.node_type n = SparkNodeType.MASTER) ns with
  | [] => __create_node_from_instances σ self = Err IndexError
  | master :: _ =>
      __create_node_from_instances σ self =
        Ok (Nodes.mk (filter (λ n, EMRNode.node_type n = SparkNodeType.WORKER) ns)
              master)
  end.
Proof.
  intros Hinsts Hns. rewrite create_node_from_instances_eq, Hinsts. simpl.
  rewrite Hns. simpl. rewrite filter_master_not_worker.
  by destruct (filter (λ n, EMRNode.node_type n = SparkNodeType.MASTER) ns).
Qed.

(** An instance without group, or an address that is not allocated, makes
    the construction fail whatever the roles are. *)
Lemma node_view_needs_groups (σ : Store) (self : EMRCluster.t)
    (insts : list loc) (e : exn) :
  EMRCluster.ec2_instances self = Some insts →
  mapM (node_of_instance σ) insts = Err e →
  __create_node_from_instances σ self = Err e.
Proof.
  intros Hinsts Hns. rewrite create_node_from_instances_eq, Hinsts. simpl.
  by rewrite Hns.
Qed.

End NodeViewFacts.

(** The instances of the scenario: one master node, three worker nodes. *)
Lemma node_view_needs_a_master_witness :
  __create_node_from_instances Scenario.store Scenario.unloaded =
    Ok Scenario.source_nodes.
Proof.
  exact (node_view_needs_a_master Scenario.store Scenario.unloaded [0; 1; 2; 3]%nat
           (Nodes.MASTER Scenario.source_nodes :: Nodes.WORKER Scenario.source_nodes)
           eq_refl eq_refl).
Defined.

(** C8 does not hold as stated for two master-role nodes: the node view
    is built without error, around the first of them. *)
Lemma two_masters_do_not_fail :
  ∃ (ns : list EMRNode.t) (nodes : Nodes.t),
    mapM (node_of_instance Scenario.two_masters_store) [0; 1; 2]%nat = Ok ns ∧
    length (filter (λ n, EMRNode.node_type n = SparkNodeType.MASTER) ns) = 2%nat ∧
    __create_node_from_instances Scenario.two_masters_store Scenario.two_masters =
      Ok nodes ∧
    EMRNode.ec2_instance (Nodes.MASTER nodes) = 0%nat.
Proof.
  eexists. eexists. split; [vm_compute; reflexivity|]. split_and!; reflexivity.
Qed.

(** ** The savings estimator *)

Section CostFacts.
Context `{PriceCatalog}.

Lemma cost_step_missing (σ : Store) (total : number) (l : loc) (grp : InstanceGroup.t) :
  group_objs σ !! l = Some grp →
  unit_cost "ec2" (InstanceGroup.instance_type grp) = None ∨
  unit_cost "emr" (InstanceGroup.instance_type grp) = None →
  cost_step σ total l = Err KeyError.
Proof.
  intros Hl Hmiss. unfold cost_step, lookup_group, catalog_get_value.
  rewrite Hl. simpl.
  destruct (unit_cost "ec2" (InstanceGroup.instance_type grp)) as [b|]; simpl; [|done].
  destruct Hmiss as [Hm|Hm]; [done|]. by rewrite Hm.
Qed.

Lemma cost_step_Err (σ : Store) (total : number) (l : loc) (e : exn) :
  cost_step σ total l = Err e →
  e = KeyError ∨ group_objs σ !! l = None.
Proof.
  unfold cost_step, lookup_group, catalog_get_value.
  destruct (group_objs σ !! l) as [grp|]; simpl; [|by right].
  destruct (unit_cost "ec2" (InstanceGroup.instance_type grp)) as [b|]; simpl;
    [|intros [= <-]; by left].
  destruct (unit_cost "emr" (InstanceGroup.instance_type grp)) as [s|]; simpl;
    [done|intros [= <-]; by left].
Qed.

Lemma cost_fold_missing (σ : Store) (gs : list loc) (l : loc) (grp : InstanceGroup.t)
    (total : number) :
  l ∈ gs →
  group_objs σ !! l = Some grp →
  unit_cost "ec2" (InstanceGroup.instance_type grp) = None ∨
  unit_cost "emr" (InstanceGroup.instance_type grp) = None →
  ∃ e, foldM (cost_step σ) gs total = Err e ∧
       (Forall (λ l, is_Some (group_objs σ !! l)) gs → e = KeyError).
Proof.
  intros Hin Hl Hmiss. revert total.
  induction gs as [|l0 gs IH]; intros total; [by apply elem_of_nil in Hin|].
  simpl. destruct (cost_step σ total l0) as [total'|e] eqn:Hstep; simpl.
  - apply elem_of_cons in Hin as [->|Hin].
    + by rewrite (cost_step_missing _ _ _ _ Hl Hmiss) in Hstep.
    + destruct (IH Hin total') as (e & He & Hk). exists e. split; [done|].
      intros Hall. apply Hk. by apply Forall_cons_1 in Hall as [_ ?].
  - exists e. split; [done|]. intros Hall. apply Forall_cons_1 in Hall as [[g Hg] _].
    apply cost_step_Err in Hstep as [->|Hnone]; [done|congruence].
Qed.

(** C7.  When a group of the cluster has an instance type for which the
    catalog has no base price or no surcharge, the cost computation raises
    and returns no total (a [KeyError] when all groups of the cluster are
    allocated), and so does the comparison of two clusters one of which is
    this one. *)
Theorem missing_price_is_an_error (σ : Store) (cluster : EMRCluster.t)
    (gs : list loc) (l : loc) (grp : InstanceGroup.t) :
  EMRCluster.instance_groups cluster = Some gs →
  l ∈ gs →
  group_objs σ !! l = Some grp →
  unit_cost "ec2" (InstanceGroup.instance_type grp) = None ∨
  unit_cost "emr" (InstanceGroup.instance_type grp) = None →
  (∃ e, _get_cost_per_cluster σ cluster = Err e ∧
        (Forall (λ l, is_Some (group_objs σ !! l)) gs → e = KeyError)) ∧
  (∀ self, EmrSavingsEstimator.target_cluster self = cluster ∨
           EmrSavingsEstimator.source_cluster self = cluster →
           ∃ e, _setup_costs σ self = Err e).
Proof.
  intros Hgs Hin Hl Hmiss.
  assert (Hcost : ∃ e, _get_cost_per_cluster σ cluster = Err e ∧
            (Forall (λ l, is_Some (group_objs σ !! l)) gs → e = KeyError)).
  { unfold _get_cost_per_cluster. rewrite Hgs. simpl.
    by eapply cost_fold_missing. }
  split; [done|]. destruct Hcost as (e & He & _).
  intros self [Hc|Hc]; unfold _setup_costs.
  - rewrite Hc, He. by exists e.
  - destruct (_get_cost_per_cluster σ (EmrSavingsEstimator.target_cluster self))
      as [tc|e']; simpl; [|by exists e'].
    rewrite Hc, He. by exists e.
Qed.

End CostFacts.

(** The scenario with a catalog that has no surcharge for g5.2xlarge. *)
Lemma missing_price_is_an_error_witness :
  @_get_cost_per_cluster Scenario.Z_arith Scenario.prices_no_gpu_surcharge
    Scenario.target_store Scenario.target = Err KeyError.
Proof.
  destruct (@missing_price_is_an_error Scenario.Z_arith Scenario.prices_no_gpu_surcharge
              Scenario.target_store Scenario.target [0; 2]%nat 2%nat Scenario.gpu_group
              eq_refl (list_elem_of_further _ _ _ (list_elem_of_here _ _)) eq_refl
              (or_intror eq_refl))
    as [(e & He & Hkey) _].
  rewrite He. f_equal. apply Hkey. repeat constructor; by eexists.
Defined.

Section ExactCostFacts.
Context `{PriceCatalog}.

(** The laws of exact arithmetic that the comparison with the specification
    relies on. *)
Hypothesis add_comm : ∀ x y : number, add x y = add y x.
Hypothesis add_assoc : ∀ x y z : number, add x (add y z) = add (add x y) z.
Hypothesis add_zero_l : ∀ x : number, add zero x = x.
Hypothesis mul_add_distr_r :
  ∀ x y z : number, mul (add x y) z = add (mul x z) (mul y z).




End ExactCostFacts.


(** ** More on [find_matches_for_node] *)

Section FirstNodeFacts.
Context `{GpuMatcher}.

Lemma find_matches_fold_app (l1 l2 : list EMRNode.t) (acc : McMap * list EMRNode.t) :
  fold_left find_matches_step (l1 ++ l2) acc =
  fold_left find_matches_step l2 (fold_left find_matches_step l1 acc).
Proof. apply fold_left_app. Qed.

(** X1.  When several worker nodes have the same instance type, the cache
    holds the answer of the matcher for the first of them in the order of the
    worker list, and that node is the one submitted. *)
Theorem first_worker_node_of_a_type_decides (self : EMRCluster.t) (nodes : Nodes.t)
    (pre post : list EMRNode.t) (n : EMRNode.t) :
  EMRCluster.nodes self = Some nodes →
  Nodes.WORKER nodes = pre ++ n :: post →
  EMRNode.instance_type n ∉ EMRNode.instance_type <$> pre →
  ∃ (mc : McMap) (calls : list EMRNode.t),
    find_matches_for_node self = Ok (mc, calls) ∧
    mc !! EMRNode.instance_type n =
      Some (find_best_cpu_conversion n get_supported_gpus) ∧
    n ∈ calls.
Proof.
  intros Hnodes Hw Hfirst.
  rewrite (find_matches_for_node_nodes _ _ Hnodes), Hw, find_matches_fold_app.
  destruct (find_matches_fold pre ∅ []) as (m1 & c1 & Hf1 & Hs1 & _ & _ & _ & Hm1).
  rewrite Hf1. simpl.
  assert (Hnone : m1 !! EMRNode.instance_type n = None).
  { destruct (m1 !! EMRNode.instance_type n) as [v|] eqn:Hv; [|done].
    apply Hm1 in Hv as [Hv|(_ & n0 & Hn0 & Heq & _)].
    - by rewrite lookup_empty in Hv.
    - exfalso. apply Hfirst. rewrite <- Heq. apply list_elem_of_fmap_2.
      by eapply sublist_subseteq. }
  unfold find_matches_step at 2. simpl. rewrite Hnone.
  destruct (find_matches_fold post
              (<[EMRNode.instance_type n :=
                   find_best_cpu_conversion n get_supported_gpus]> m1) (c1 ++ [n]))
    as (m2 & c2 & Hf2 & _ & _ & _ & _ & Hm2).
  rewrite Hf2. eexists _, _. split; [done|]. split.
  - apply Hm2. left. apply lookup_insert_eq.
  - rewrite !elem_of_app. left. right. apply list_elem_of_here.
Qed.

End FirstNodeFacts.

(** ** More on the group loop *)

Section GroupLoopFacts.
Context `{SparkNodeType.Parser}.

(** One iteration of the group loop, with what it does to [group_cache]. *)
Lemma convert_group_cache (mc : McMap) (σ σ1 : Store) (cache cache1 : gmap string loc)
    (self self1 : EMRCluster.t) (l : loc) (acc : list loc) :
  convert_group mc (σ, cache, self) l = Ok (σ1, cache1, self1) →
  EMRCluster.instance_groups self = Some acc →
  ∃ grp l',
    group_objs σ !! l = Some grp ∧
    self1 = EMRCluster.set_instance_groups (Some (acc ++ [l'])) self ∧
    cache1 =
      (if decide (InstanceGroup.spark_grp_type grp = SparkNodeType.MASTER)
       then cache else <[InstanceGroup.id grp := l']> cache) ∧
    group_objs σ `prefix_of` group_objs σ1 ∧
    (InstanceGroup.spark_grp_type grp = SparkNodeType.MASTER ∨
     new_instance_type_of mc grp = InstanceGroup.instance_type grp →
     σ1 = σ ∧ l' = l).
Proof.
  unfold convert_group, lookup_group, append_instance_group. intros Hc Hacc.
  destruct (group_objs σ !! l) as [grp|] eqn:Hl; simpl in Hc; [|done].
  rewrite Hacc in Hc. exists grp.
  destruct (decide (InstanceGroup.spark_grp_type grp = SparkNodeType.MASTER)) as [Hm|Hm].
  { simpl in Hc. injection Hc as <- <- <-. exists l. by split_and!. }
  destruct (decide (new_instance_type_of mc grp = InstanceGroup.instance_type grp))
    as [Ht|Ht].
  { simpl in Hc. injection Hc as <- <- <-. exists l. by split_and!. }
  simpl in Hc. injection Hc as <- <- <-. exists (length (group_objs σ)). simpl.
  split_and!; try done.
  - by apply prefix_app_r.
  - by intros [?|?].
Qed.

(** An entry of [group_cache] whose key is the id of no worker-role group of
    the list is as it was before the loop. *)
Lemma convert_groups_other_key (mc : McMap) (gs : list loc) (σ σ' : Store)
    (cache cache' : gmap string loc) (self self' : EMRCluster.t) (acc : list loc)
    (k : string) :
  foldM (convert_group mc) gs (σ, cache, self) = Ok (σ', cache', self') →
  EMRCluster.instance_groups self = Some acc →
  (∀ l grp, l ∈ gs → group_objs σ' !! l = Some grp →
            InstanceGroup.spark_grp_type grp ≠ SparkNodeType.MASTER →
            InstanceGroup.id grp ≠ k) →
  cache' !! k = cache !! k.
Proof.
  revert σ cache self acc. induction gs as [|l gs IH]; intros σ cache self acc; simpl.
  { by intros [= <- <- <-]. }
  intros Hc Hacc Hk. apply bind_Ok in Hc as ([[σ1 cache1] self1] & Hstep & Hrest).
  destruct (convert_group_cache _ _ _ _ _ _ _ _ _ Hstep Hacc)
    as (grp & l' & Hl & -> & -> & Hp1 & _).
  destruct (convert_groups_inv _ _ _ _ _ _ _ _ _ Hrest eq_refl) as (news & _ & _ & Hp2 & _).
  rewrite (IH _ _ _ _ Hrest eq_refl).
  - destruct (decide (InstanceGroup.spark_grp_type grp = SparkNodeType.MASTER)) as [Hm|Hm];
      [done|].
    rewrite lookup_insert_ne; [done|]. apply (Hk l grp); [apply list_elem_of_here| |done].
    eapply prefix_lookup_Some; [|exact Hp2]. by eapply prefix_lookup_Some.
  - intros l0 grp0 Hin. apply Hk. by apply list_elem_of_further.
Qed.

(** After the loop, [group_cache] maps the id of a worker-role group to what
    the loop produced for the last group of the list with that id. *)
Lemma convert_groups_cache (mc : McMap) (gs : list loc) (σ σ' : Store)
    (cache cache' : gmap string loc) (self self' : EMRCluster.t) (acc : list loc) :
  foldM (convert_group mc) gs (σ, cache, self) = Ok (σ', cache', self') →
  EMRCluster.instance_groups self = Some acc →
  ∃ news,
    self' = EMRCluster.set_instance_groups (Some (acc ++ news)) self ∧
    ∀ i l grp,
      gs !! i = Some l →
      group_objs σ' !! l = Some grp →
      InstanceGroup.spark_grp_type grp ≠ SparkNodeType.MASTER →
      (∀ j l2 grp2, (i < j)%nat → gs !! j = Some l2 →
                    group_objs σ' !! l2 = Some grp2 →
                    InstanceGroup.spark_grp_type grp2 ≠ SparkNodeType.MASTER →
                    InstanceGroup.id grp2 ≠ InstanceGroup.id grp) →
      cache' !! InstanceGroup.id grp = news !! i.
Proof.
  revert σ cache self acc. induction gs as [|l gs IH]; intros σ cache self acc; simpl.
  { intros [= <- <- <-] Hacc. exists []. rewrite app_nil_r. split.
    - destruct self. simpl in *. by subst.
    - by intros i l grp Hi. }
  intros Hc Hacc. apply bind_Ok in Hc as ([[σ1 cache1] self1] & Hstep & Hrest).
  destruct (convert_group_cache _ _ _ _ _ _ _ _ _ Hstep Hacc)
    as (grp0 & l' & Hl0 & -> & -> & Hp1 & _).
  destruct (convert_groups_inv _ _ _ _ _ _ _ _ _ Hrest eq_refl) as (news0 & _ & _ & Hp2 & _).
  destruct (IH _ _ _ _ Hrest eq_refl) as (news & -> & Hcache).
  exists (l' :: news). split.
  { unfold EMRCluster.set_instance_groups. simpl. by rewrite <- app_assoc. }
  intros [|i] l1 grp Hi Hl1 Hm Hlast.
  - simpl in Hi. injection Hi as <-. simpl.
    assert (group_objs σ' !! l = Some grp0) as Hl0'.
    { eapply prefix_lookup_Some; [|exact Hp2]. by eapply prefix_lookup_Some. }
    rewrite Hl0' in Hl1. injection Hl1 as <-.
    rewrite (convert_groups_other_key _ _ _ _ _ _ _ _ _ _ Hrest eq_refl).
    + rewrite decide_False by done. apply lookup_insert_eq.
    + intros l2 grp2 Hin Hl2 Hm2. apply list_elem_of_lookup in Hin as [j Hj].
      apply (Hlast (S j) l2 grp2); [lia|done|done|done].
  - simpl in Hi. simpl. apply (Hcache i l1 grp Hi Hl1 Hm).
    intros j l2 grp2 Hij Hj. apply (Hlast (S j) l2 grp2). lia. done.
Qed.

(** When the looked-up type of every worker-role group of the list is its
    own, the loop allocates nothing and keeps every group. *)
Lemma convert_groups_unchanged (mc : McMap) (gs : list loc) (σ σ' : Store)
    (cache cache' : gmap string loc) (self self' : EMRCluster.t) (acc : list loc) :
  (∀ l grp, l ∈ gs → group_objs σ !! l = Some grp →
            InstanceGroup.spark_grp_type grp ≠ SparkNodeType.MASTER →
            new_instance_type_of mc grp = InstanceGroup.instance_type grp) →
  foldM (convert_group mc) gs (σ, cache, self) = Ok (σ', cache', self') →
  EMRCluster.instance_groups self = Some acc →
  σ' = σ ∧ self' = EMRCluster.set_instance_groups (Some (acc ++ gs)) self.
Proof.
  revert cache self acc. induction gs as [|l gs IH]; intros cache self acc Hsame; simpl.
  { intros [= <- <- <-] Hacc. rewrite app_nil_r. split; [done|].
    destruct self. simpl in *. by subst. }
  intros Hc Hacc. apply bind_Ok in Hc as ([[σ1 cache1] self1] & Hstep & Hrest).
  destruct (convert_group_cache _ _ _ _ _ _ _ _ _ Hstep Hacc)
    as (grp & l' & Hl & -> & -> & _ & Hkeep).
  destruct Hkeep as [-> ->].
  { destruct (decide (InstanceGroup.spark_grp_type grp = SparkNodeType.MASTER));
      [by left|right]. apply (Hsame l); [apply list_elem_of_here|done|done]. }
  assert (Hsame' : ∀ l0 grp0, l0 ∈ gs → group_objs σ !! l0 = Some grp0 →
            InstanceGroup.spark_grp_type grp0 ≠ SparkNodeType.MASTER →
            new_instance_type_of mc grp0 = InstanceGroup.instance_type grp0).
  { intros l0 grp0 Hin. apply Hsame. by apply list_elem_of_further. }
  destruct (IH _ _ (acc ++ [l]) Hsame' Hrest eq_refl) as [-> ->].
  split; [done|]. unfold EMRCluster.set_instance_groups. simpl. by rewrite <- app_assoc.
Qed.

End GroupLoopFacts.

(** ** More on [migrate_from_cluster] *)

Section MigrationSteps.
Context `{SparkNodeType.Parser} `{GpuMatcher}.

(** The steps of a successful migration, one by one. *)
Lemma migrate_from_cluster_steps (self orig : EMRCluster.t) (σ : Store)
    (run : MigrationRun) :
  migrate_from_cluster self orig σ = Ok run →
  ∃ nodes0 gs insts σ1 cache self1 self2 nodes',
    EMRCluster.nodes orig = Some nodes0 ∧
    EMRCluster.instance_groups orig = Some gs ∧
    EMRCluster.ec2_instances orig = Some insts ∧
    let r := fold_left find_matches_step (Nodes.WORKER nodes0) (∅, []) in
    let self0 :=
      EMRCluster.mk (EMRCluster.name orig) (EMRCluster.uuid orig)
        (EMRCluster.zone orig) (EMRCluster.state orig) (Some []) (Some [])
        (EMRCluster.nodes self) in
    foldM (convert_group r.1) gs (σ, ∅, self0) = Ok (σ1, cache, self1) ∧
    foldM (convert_instance cache) insts (σ1, self1) = Ok (heap run, self2) ∧
    __create_node_from_instances (heap run) self2 = Ok nodes' ∧
    gpu_cluster_ob run = EMRCluster.set_nodes (Some nodes') self2.
Proof.
  unfold migrate_from_cluster. intros Hm.
  apply bind_Ok in Hm as ([mc calls] & Hfm & Hm).
  destruct (EMRCluster.nodes orig) as [nodes0|] eqn:Hnodes;
    [|by rewrite find_matches_for_node_no_nodes in Hfm].
  rewrite (find_matches_for_node_nodes _ _ Hnodes) in Hfm. injection Hfm as Hfm.
  apply bind_Ok in Hm as (gs & Hgs & Hm). apply or_raise_Ok in Hgs.
  apply bind_Ok in Hm as ([[σ1 cache] self1] & Hgl & Hm).
  apply bind_Ok in Hm as (insts & Hinsts & Hm). apply or_raise_Ok in Hinsts.
  apply bind_Ok in Hm as ([σ2 self2] & Hil & Hm).
  apply bind_Ok in Hm as (nodes' & Hcn & [= <-]).
  exists nodes0, gs, insts, σ1, cache, self1, self2, nodes'. simpl.
  rewrite Hfm. simpl. by split_and!.
Qed.

Lemma convert_instance_fresh (cache : gmap string loc) (σ σ1 : Store)
    (self self1 : EMRCluster.t) (l : loc) (acc : list loc) :
  convert_instance cache (σ, self) l = Ok (σ1, self1) →
  EMRCluster.ec2_instances self = Some acc →
  self1 = EMRCluster.set_ec2_instances (Some (acc ++ [length (instance_objs σ)])) self ∧
  length (instance_objs σ1) = S (length (instance_objs σ)).
Proof.
  unfold convert_instance, lookup_instance, lookup_group, append_ec2_instance.
  intros Hc Hacc.
  destruct (instance_objs σ !! l) as [inst|]; simpl in Hc; [|done].
  destruct (Ec2Instance.group inst) as [g|]; simpl in Hc; [|done].
  destruct (group_objs σ !! g) as [grp|]; simpl in Hc; [|done].
  rewrite Hacc in Hc. simpl in Hc. injection Hc as <- <-. simpl.
  split; [done|]. rewrite length_app. simpl. lia.
Qed.

(** The instance loop allocates one object for each instance of the list,
    one after the other. *)
Lemma convert_instances_fresh (cache : gmap string loc) (insts : list loc)
    (σ σ' : Store) (self self' : EMRCluster.t) (acc : list loc) :
  foldM (convert_instance cache) insts (σ, self) = Ok (σ', self') →
  EMRCluster.ec2_instances self = Some acc →
  self' = EMRCluster.set_ec2_instances
            (Some (acc ++ seq (length (instance_objs σ)) (length insts))) self ∧
  length (instance_objs σ') = (length (instance_objs σ) + length insts)%nat.
Proof.
  revert σ self acc. induction insts as [|l insts IH]; intros σ self acc; simpl.
  { intros [= <- <-] Hacc. rewrite app_nil_r. split; [|lia].
    destruct self. simpl in *. by subst. }
  intros Hc Hacc. apply bind_Ok in Hc as ([σ1 self1] & Hstep & Hrest).
  destruct (convert_instance_fresh _ _ _ _ _ _ _ Hstep Hacc) as [-> Hlen].
  destruct (IH _ _ _ Hrest eq_refl) as [-> Hlen']. rewrite Hlen', Hlen. split; [|lia].
  unfold EMRCluster.set_ec2_instances. simpl. by rewrite <- app_assoc.
Qed.

(** X2.  A migrated cluster has as many groups and as many instances
    as its source, and its instances are new objects, all distinct: they are
    allocated one after the other above every object of the source. *)
Theorem migration_preserves_counts (self orig : EMRCluster.t) (σ : Store)
    (run : MigrationRun) (gs insts : list loc) :
  migrate_from_cluster self orig σ = Ok run →
  EMRCluster.instance_groups orig = Some gs →
  EMRCluster.ec2_instances orig = Some insts →
  ∃ news_g,
    EMRCluster.instance_groups (gpu_cluster_ob run) = Some news_g ∧
    length news_g = length gs ∧
    EMRCluster.ec2_instances (gpu_cluster_ob run) =
      Some (seq (length (instance_objs σ)) (length insts)) ∧
    length (instance_objs (heap run)) =
      (length (instance_objs σ) + length insts)%nat.
Proof.
  intros Hrun Hgs Hinsts.
  destruct (migrate_from_cluster_steps _ _ _ _ Hrun)
    as (nodes0 & gs' & insts' & σ1 & cache & self1 & self2 & nodes' & _ & Hgs' & Hinsts'
        & Hsteps).
  simpl in Hsteps. destruct Hsteps as (Hgl & Hil & _ & Hgpu).
  rewrite Hgs in Hgs'. injection Hgs' as <-.
  rewrite Hinsts in Hinsts'. injection Hinsts' as <-.
  destruct (convert_groups_inv _ _ _ _ _ _ _ _ [] Hgl eq_refl)
    as (news_g & -> & Hi1 & _ & Hall).
  destruct (convert_instances_fresh _ _ _ _ _ _ [] Hil eq_refl) as [-> Hlen].
  exists news_g. rewrite Hgpu. simpl. rewrite <- Hi1. split_and!; try done.
  symmetry. by eapply Forall2_length.
Qed.

(** X3.  A group of the migrated cluster is either the group of the
    source at that position, by reference, or a group allocated by the
    migration for a worker-role group: then it has the id, the count, the
    market and the label of the source group, the role the classifier gives
    that label, and another instance type. *)
Theorem rebuilt_group_differs_in_type_only (self orig : EMRCluster.t) (σ : Store)
    (run : MigrationRun) (gs : list loc) :
  migrate_from_cluster self orig σ = Ok run →
  EMRCluster.instance_groups orig = Some gs →
  ∃ news_g,
    EMRCluster.instance_groups (gpu_cluster_ob run) = Some news_g ∧
    Forall2 (λ l l', ∀ grp,
               group_objs σ !! l = Some grp →
               l' = l ∨
               (length (group_objs σ) ≤ l')%nat ∧
               InstanceGroup.spark_grp_type grp = SparkNodeType.WORKER ∧
               ∃ grp',
                 group_objs (heap run) !! l' = Some grp' ∧
                 InstanceGroup.id grp' = InstanceGroup.id grp ∧
                 InstanceGroup.count grp' = InstanceGroup.count grp ∧
                 InstanceGroup.market grp' = InstanceGroup.market grp ∧
                 InstanceGroup.group_type grp' = InstanceGroup.group_type grp ∧
                 InstanceGroup.spark_grp_type grp' =
                   get_spark_node_type_fromstring (InstanceGroup.group_type grp) ∧
                 InstanceGroup.instance_type grp' ≠ InstanceGroup.instance_type grp)
            gs news_g.
Proof.
  intros Hrun Hgs.
  destruct (migrate_from_cluster_inv _ _ _ _ Hrun)
    as (nodes0 & gs' & insts & cache & news_g & news_i & nodes' & _ & Hgs' & _ & Hrest).
  simpl in Hrest. destruct Hrest as (Hgpu & _ & _ & [Hext _] & Hall & _).
  rewrite Hgs in Hgs'. injection Hgs' as <-.
  exists news_g. split; [by rewrite Hgpu|].
  eapply Forall2_impl; [exact Hall|]. intros l l' (grp0 & Hl0 & Hcase) grp Hl.
  pose proof (prefix_lookup_Some _ _ _ _ Hl Hext) as Hl'.
  rewrite Hl0 in Hl'. injection Hl' as ->.
  destruct (decide (InstanceGroup.spark_grp_type grp = SparkNodeType.MASTER)) as [Hm|Hm];
    [by left|].
  destruct (decide (new_instance_type_of _ grp = InstanceGroup.instance_type grp))
    as [Ht|Ht]; [by left|].
  destruct Hcase as [Hge Hnew]. right. split; [done|]. split.
  { by destruct (InstanceGroup.spark_grp_type grp). }
  eexists. split; [exact Hnew|]. by split_and!.
Qed.

(** X4.  When the worker-role groups of the source have distinct ids,
    every instance of the migrated cluster belongs to the group that the
    migrated cluster holds at the position of the instance's source group:
    the groups and the instances of the migrated cluster stay linked as
    those of the source are. *)
Theorem migrated_instances_follow_their_groups (self orig : EMRCluster.t) (σ : Store)
    (run : MigrationRun) (gs insts : list loc) :
  migrate_from_cluster self orig σ = Ok run →
  EMRCluster.instance_groups orig = Some gs →
  EMRCluster.ec2_instances orig = Some insts →
  Forall (λ l, is_Some (group_objs σ !! l)) gs →
  (∀ i j li lj gi gj,
     gs !! i = Some li → gs !! j = Some lj →
     group_objs σ !! li = Some gi → group_objs σ !! lj = Some gj →
     InstanceGroup.spark_grp_type gi ≠ SparkNodeType.MASTER →
     InstanceGroup.spark_grp_type gj ≠ SparkNodeType.MASTER →
     InstanceGroup.id gi = InstanceGroup.id gj → i = j) →
  ∃ news_g news_i,
    EMRCluster.instance_groups (gpu_cluster_ob run) = Some news_g ∧
    EMRCluster.ec2_instances (gpu_cluster_ob run) = Some news_i ∧
    ∀ k l inst g i,
      insts !! k = Some l →
      instance_objs σ !! l = Some inst →
      Ec2Instance.group inst = Some g →
      gs !! i = Some g →
      ∃ l' inst' g',
        news_i !! k = Some l' ∧
        instance_objs (heap run) !! l' = Some inst' ∧
        Ec2Instance.group inst' = Some g' ∧
        news_g !! i = Some g'.
Proof.
  intros Hrun Hgs Hinsts Hvalid Huniq.
  destruct (migrate_from_cluster_steps _ _ _ _ Hrun)
    as (nodes0 & gs' & insts' & σ1 & cache & self1 & self2 & nodes' & _ & Hgs' & Hinsts'
        & Hsteps).
  simpl in Hsteps. destruct Hsteps as (Hgl & Hil & _ & Hgpu).
  rewrite Hgs in Hgs'. injection Hgs' as <-.
  rewrite Hinsts in Hinsts'. injection Hinsts' as <-.
  set (mc := (fold_left find_matches_step (Nodes.WORKER nodes0) (∅, [])).1) in *.
  destruct (convert_groups_inv _ _ _ _ _ _ _ _ [] Hgl eq_refl)
    as (news_g & Hself1 & Hi1 & Hp1 & Hallg).
  destruct (convert_groups_cache _ _ _ _ _ _ _ _ [] Hgl eq_refl)
    as (news_g' & Hself1' & Hcache).
  assert (news_g' = news_g) as ->.
  { rewrite Hself1 in Hself1'. by injection Hself1' as ->. }
  subst self1.
  destruct (convert_instances_inv _ _ _ _ _ _ [] Hil eq_refl)
    as (news_i & -> & Hg2 & Hp2 & Halli).
  exists news_g, news_i. rewrite Hgpu. simpl. split; [done|]. split; [done|].
  intros k l inst g i Hk Hl Hg Hi.
  destruct (Forall2_lookup_l _ _ _ _ _ Halli Hk)
    as (l' & Hl' & inst0 & g0 & grp0 & Hl0 & Hg0 & Hgrp0 & _ & Hnew).
  assert (instance_objs (heap run) !! l = Some inst) as Hl2.
  { eapply prefix_lookup_Some; [|exact Hp2]. by rewrite Hi1. }
  rewrite Hl0 in Hl2. injection Hl2 as ->.
  rewrite Hg in Hg0. injection Hg0 as <-.
  destruct (Forall2_lookup_l _ _ _ _ _ Hallg Hi) as (g' & Hg' & grp1 & Hgrp1 & Hcase).
  rewrite <- Hg2 in Hgrp1. rewrite Hgrp0 in Hgrp1. injection Hgrp1 as <-.
  rewrite Hg2 in Hgrp0.
  assert (Hsrc : ∀ l2 grp2 j, gs !! j = Some l2 → group_objs σ1 !! l2 = Some grp2 →
                              group_objs σ !! l2 = Some grp2).
  { intros l2 grp2 j Hj Hl2. rewrite Forall_forall in Hvalid.
    destruct (Hvalid l2) as [grp3 Hgrp3]; [by eapply list_elem_of_lookup_2|].
    pose proof (prefix_lookup_Some _ _ _ _ Hgrp3 Hp1) as Hgrp3'. congruence. }
  exists l'. eexists. exists g'. split; [done|]. split; [exact Hnew|]. simpl.
  split; [|done].
  destruct (decide (InstanceGroup.spark_grp_type grp0 = SparkNodeType.MASTER)) as [Hm|Hm].
  - by rewrite Hg, Hcase.
  - rewrite (Hcache i g grp0 Hi Hgrp0 Hm); [done|].
    intros j l2 grp2 Hij Hj Hl2 Hm2 Heq.
    assert (j = i); [|lia].
    eapply (Huniq j i l2 g grp2 grp0); eauto.
Qed.

Lemma mapM_result_inv {A B : Type} (f : A → result B) (l : list A) (k : list B) :
  mapM f l = Ok k → Forall2 (λ a b, f a = Ok b) l k.
Proof.
  revert k. induction l as [|a l IH]; intros k; simpl.
  - intros [= <-]. constructor.
  - intros Hk. apply bind_Ok in Hk as (b & Hb & Hk).
    apply bind_Ok in Hk as (k' & Hk' & [= <-]). constructor; [done|by apply IH].
Qed.

(** X5.  Every node of a migrated cluster views one of the instances of
    the migrated cluster and has no name, the master node included; the
    worker nodes have the worker role and the master node the master role.
    The SSH prefix built for such a node therefore addresses the host
    [None]. *)
Theorem migrated_nodes_have_no_name (self orig : EMRCluster.t) (σ : Store)
    (run : MigrationRun) :
  migrate_from_cluster self orig σ = Ok run →
  ∃ nodes' news_i,
    EMRCluster.nodes (gpu_cluster_ob run) = Some nodes' ∧
    EMRCluster.ec2_instances (gpu_cluster_ob run) = Some news_i ∧
    Forall (λ n, EMRNode.name n = None ∧ EMRNode.ec2_instance n ∈ news_i ∧
                 EMRNode.node_type n = SparkNodeType.WORKER) (Nodes.WORKER nodes') ∧
    EMRNode.name (Nodes.MASTER nodes') = None ∧
    EMRNode.ec2_instance (Nodes.MASTER nodes') ∈ news_i ∧
    EMRNode.node_type (Nodes.MASTER nodes') = SparkNodeType.MASTER ∧
    ∀ keyPairPath n,
      n ∈ Nodes.MASTER nodes' :: Nodes.WORKER nodes' →
      _build_ssh_cmd_prefix_for_node keyPairPath n =
        join_spaces ["ssh"; "-o StrictHostKeyChecking=no";
                     "-i " +:+ format_opt keyPairPath; "hadoop@None"].
Proof.
  intros Hrun.
  destruct (migrate_from_cluster_inv _ _ _ _ Hrun)
    as (nodes0 & gs & insts & cache & news_g & news_i & nodes' & _ & _ & _ & Hrest).
  simpl in Hrest. destruct Hrest as (Hgpu & _ & _ & _ & _ & Halli & Hcn).
  exists nodes', news_i. rewrite Hgpu. simpl. split; [done|]. split; [done|].
  destruct (create_node_from_instances_roles _ _ _ Hcn) as [Hwr Hmr].
  rewrite create_node_from_instances_eq, Hgpu in Hcn. simpl in Hcn.
  apply bind_Ok in Hcn as (ns & Hns & Hcn).
  apply bind_Ok in Hcn as (master & Hmaster & [= <-]). apply or_raise_Ok in Hmaster.
  simpl in *.
  apply mapM_result_inv in Hns.
  assert (Hall : ∀ n, n ∈ ns → EMRNode.name n = None ∧ EMRNode.ec2_instance n ∈ news_i).
  { intros n Hn. apply list_elem_of_lookup in Hn as [k Hk].
    destruct (Forall2_lookup_r _ _ _ _ _ Hns Hk) as (l' & Hl' & Hn).
    destruct (Forall2_lookup_r _ _ _ _ _ Halli Hl')
      as (l & _ & inst0 & g0 & grp0 & _ & _ & _ & _ & Hnew).
    unfold node_of_instance, lookup_instance in Hn. rewrite Hnew in Hn. simpl in Hn.
    apply bind_Ok in Hn as (g & _ & Hn). apply bind_Ok in Hn as (grp & _ & [= <-]).
    simpl. split; [done|]. by eapply list_elem_of_lookup_2. }
  apply head_Some_elem_of, list_elem_of_filter in Hmaster as [_ Hin].
  split_and!.
  - apply Forall_forall. intros n Hn. rewrite Forall_forall in Hwr.
    specialize (Hwr n Hn). apply list_elem_of_filter in Hn as [_ Hn].
    destruct (Hall n Hn). by split_and!.
  - by destruct (Hall master Hin).
  - by destruct (Hall master Hin).
  - done.
  - intros key n Hn. unfold _build_ssh_cmd_prefix_for_node.
    assert (EMRNode.name n = None) as ->; [|done].
    apply elem_of_cons in Hn as [->|Hn]; [by destruct (Hall master Hin)|].
    apply list_elem_of_filter in Hn as [_ Hn]. by destruct (Hall n Hn).
Qed.

End MigrationSteps.

(** ** Migration and the estimator *)

Lemma foldM_ext {A B : Type} (f g : A → B → result A) (l : list B) (a : A) :
  (∀ a' b, b ∈ l → f a' b = g a' b) → foldM f l a = foldM g l a.
Proof.
  revert a. induction l as [|b l IH]; intros a Hfg; simpl; [done|].
  rewrite (Hfg a b) by apply list_elem_of_here.
  destruct (g a b) as [a'|e]; simpl; [|done].
  apply IH. intros a'' b' Hb'. apply Hfg. by apply list_elem_of_further.
Qed.

Lemma mapM_result_ext {A B : Type} (f g : A → result B) (l : list A) :
  (∀ a, a ∈ l → f a = g a) → mapM f l = mapM g l.
Proof.
  induction l as [|a l IH]; intros Hfg; simpl; [done|].
  rewrite (Hfg a) by apply list_elem_of_here.
  rewrite IH; [done|]. intros a' Ha'. apply Hfg. by apply list_elem_of_further.
Qed.

Section SourceAfterMigration.
Context `{SparkNodeType.Parser} `{GpuMatcher} `{PriceCatalog}.

(** The cost of a cluster is read from its list of groups and from the group
    objects only. *)
Lemma cost_reads_groups_only (σ σ' : Store) (c c' : EMRCluster.t) :
  group_objs σ = group_objs σ' →
  EMRCluster.instance_groups c = EMRCluster.instance_groups c' →
  _get_cost_per_cluster σ c = _get_cost_per_cluster σ' c'.
Proof.
  intros Hg Hc. unfold _get_cost_per_cluster. rewrite Hc.
  destruct (EMRCluster.instance_groups c') as [gs|]; simpl; [|done].
  apply foldM_ext. intros total l _. unfold cost_step, lookup_group. by rewrite Hg.
Qed.

(** X6.  When the matcher answers every worker node with the node's
    own instance type (and so when there is no worker node at all), the
    migrated cluster holds the very groups of the source, the migration
    allocates no group, and the estimator finds the same cost for the source
    and for the migrated cluster. *)
Theorem migration_without_substitution_changes_nothing (self orig : EMRCluster.t)
    (σ : Store) (run : MigrationRun) (nodes : Nodes.t) :
  migrate_from_cluster self orig σ = Ok run →
  EMRCluster.nodes orig = Some nodes →
  (∀ n, n ∈ Nodes.WORKER nodes →
        find_best_cpu_conversion n get_supported_gpus = EMRNode.instance_type n) →
  EMRCluster.instance_groups (gpu_cluster_ob run) = EMRCluster.instance_groups orig ∧
  group_objs (heap run) = group_objs σ ∧
  _get_cost_per_cluster (heap run) (gpu_cluster_ob run) =
    _get_cost_per_cluster σ orig ∧
  ∀ est est',
    EmrSavingsEstimator.target_cluster est = gpu_cluster_ob run →
    EmrSavingsEstimator.source_cluster est = orig →
    _setup_costs (heap run) est = Ok est' →
    EmrSavingsEstimator.target_cost est' = EmrSavingsEstimator.source_cost est'.
Proof.
  intros Hrun Hnodes Hid.
  destruct (migrate_from_cluster_steps _ _ _ _ Hrun)
    as (nodes0 & gs & insts & σ1 & cache & self1 & self2 & nodes' & Hn0 & Hgs & Hinsts
        & Hsteps).
  simpl in Hsteps. destruct Hsteps as (Hgl & Hil & _ & Hgpu).
  rewrite Hnodes in Hn0. injection Hn0 as <-.
  destruct (find_matches_fold (Nodes.WORKER nodes) ∅ [])
    as (mc & new & Hfold & Hsub & _ & _ & _ & Hmap).
  rewrite Hfold in Hgl. simpl in Hgl.
  assert (Hsame : ∀ grp, new_instance_type_of mc grp = InstanceGroup.instance_type grp).
  { intros grp. unfold new_instance_type_of.
    destruct (mc !! InstanceGroup.instance_type grp) as [v|] eqn:Hv; [|done].
    apply Hmap in Hv as [Hv|(_ & n & Hn & Ht & ->)]; [by rewrite lookup_empty in Hv|].
    simpl. rewrite Hid; [done|]. by eapply sublist_subseteq. }
  destruct (convert_groups_unchanged mc gs σ σ1 ∅ cache _ self1 []
              (λ l grp _ _ _, Hsame grp) Hgl eq_refl) as [-> ->].
  destruct (convert_instances_inv _ _ _ _ _ _ [] Hil eq_refl)
    as (news_i & -> & Hg2 & _ & _).
  assert (Hgroups : EMRCluster.instance_groups (gpu_cluster_ob run) =
                    EMRCluster.instance_groups orig).
  { rewrite Hgpu, Hgs. reflexivity. }
  assert (Hcost : _get_cost_per_cluster (heap run) (gpu_cluster_ob run) =
                  _get_cost_per_cluster σ orig)
    by by apply cost_reads_groups_only.
  split_and!; try done.
  intros est est' Ht Hs Hsetup. unfold _setup_costs in Hsetup.
  rewrite Ht, Hcost in Hsetup. apply bind_Ok in Hsetup as (tc & Htc & Hsetup).
  simpl in Hsetup. rewrite Hs in Hsetup.
  rewrite <- (cost_reads_groups_only σ (heap run) orig orig) in Hsetup by done.
  rewrite Htc in Hsetup. simpl in Hsetup. by injection Hsetup as <-.
Qed.

Lemma node_of_instance_extends (σ σ' : Store) (l : loc) (inst : Ec2Instance.t) (g : loc) :
  extends σ σ' →
  instance_objs σ !! l = Some inst →
  Ec2Instance.group inst = Some g →
  is_Some (group_objs σ !! g) →
  node_of_instance σ' l = node_of_instance σ l.
Proof.
  intros [Hg Hi] Hl Hgrp [grp Hg0]. unfold node_of_instance, lookup_instance, lookup_group.
  rewrite Hl, (prefix_lookup_Some _ _ _ _ Hl Hi). simpl. rewrite Hgrp. simpl.
  by rewrite Hg0, (prefix_lookup_Some _ _ _ _ Hg0 Hg).
Qed.

(** X7.  After the migration of a well-formed cluster the source reads
    as before: building its node view again and computing its cost again, in
    the store the migration leaves, give what they gave before. *)
Theorem source_reads_the_same_after_migration (self orig : EMRCluster.t) (σ : Store)
    (run : MigrationRun) :
  well_formed σ orig →
  migrate_from_cluster self orig σ = Ok run →
  __create_node_from_instances (heap run) orig = __create_node_from_instances σ orig ∧
  _get_cost_per_cluster (heap run) orig = _get_cost_per_cluster σ orig.
Proof.
  intros (nodes & gs & insts & _ & Hgs & Hinsts & Hvg & Hvi & _) Hrun.
  destruct (migrate_from_cluster_inv _ _ _ _ Hrun)
    as (nodes0 & gs' & insts' & cache & news_g & news_i & nodes' & _ & _ & _ & Hrest).
  simpl in Hrest. destruct Hrest as (_ & _ & _ & Hext & _).
  rewrite Forall_forall in Hvg, Hvi. split.
  - rewrite !create_node_from_instances_eq, Hinsts. simpl.
    rewrite (mapM_result_ext (node_of_instance (heap run)) (node_of_instance σ)); [done|].
    intros l Hl. destruct (Hvi l Hl) as (inst & g & Hinst & Hg & Hin).
    eapply node_of_instance_extends; eauto.
  - unfold _get_cost_per_cluster. rewrite Hgs. simpl. apply foldM_ext.
    intros total l Hl. destruct (Hvg l Hl) as [grp Hgrp].
    unfold cost_step, lookup_group. destruct Hext as [Hextg _].
    by rewrite Hgrp, (prefix_lookup_Some _ _ _ _ Hgrp Hextg).
Qed.

End SourceAfterMigration.

(** ** [validate_job_submission_args] *)

Lemma dict_get_elem {V : Type} (d : dict V) (k : string) (v : V) :
  NoDup (dict_keys d) → dict_get d k = Some v ↔ (k, v) ∈ d.
Proof. intros Hnd. unfold dict_get. symmetry. by apply elem_of_list_to_map. Qed.

Lemma dict_get_None {V : Type} (d : dict V) (k : string) :
  dict_get d k = None ↔ k ∉ dict_keys d.
Proof. unfold dict_get, dict_keys. symmetry. apply not_elem_of_list_to_map. Qed.

Lemma first_failure {A : Type} (P : A → Prop) `{!∀ x, Decision (P x)} (l : list A) :
  ¬ Forall P l → ∃ pre x post, l = pre ++ x :: post ∧ Forall P pre ∧ ¬ P x.
Proof.
  induction l as [|a l IH]; intros Hnot.
  { exfalso. apply Hnot. constructor. }
  destruct (decide (P a)) as [Ha|Ha].
  - destruct IH as (pre & x & post & -> & Hpre & Hx).
    { intros Hl. apply Hnot. by constructor. }
    exists (a :: pre), x, post. split_and!; try done. by constructor.
  - exists [], a, l. split_and!; try done.
Qed.

(** The loop over valid keys returns, and logs the warning once for each
    occurrence of the key application-id that has no value. *)
Lemma validate_loop_valid (args : dict (option string)) (keys : list string)
    (warnings : list string) :
  Forall (λ k, k ∈ valid_keys) keys →
  validate_loop args keys warnings =
    (warnings ++
       flat_map (λ k, if decide (k = "application-id" ∧ mjoin (dict_get args k) = None)
                      then [application_id_warning] else []) keys,
     Return tt).
Proof.
  revert warnings. induction keys as [|k keys IH]; intros warnings Hvalid; simpl.
  { by rewrite app_nil_r. }
  apply Forall_cons_1 in Hvalid as [Hk Hvalid].
  rewrite decide_False by (intros Hn; by apply Hn).
  rewrite IH by done.
  destruct (decide (k = "application-id" ∧ mjoin (dict_get args k) = None)); simpl.
  - by rewrite <- app_assoc.
  - done.
Qed.

Lemma validate_loop_invalid (args : dict (option string)) (pre post : list string)
    (k : string) (warnings : list string) :
  Forall (λ k, k ∈ valid_keys) pre →
  k ∉ valid_keys →
  ∃ warnings',
    validate_loop args (pre ++ k :: post) warnings =
      (warnings', Raise (RuntimeError (invalid_submission_argument k))).
Proof.
  revert warnings. induction pre as [|k0 pre IH]; intros warnings Hvalid Hk; simpl.
  { rewrite decide_True by done. by eexists. }
  apply Forall_cons_1 in Hvalid as [Hk0 Hvalid].
  rewrite decide_False by (intros Hn; by apply Hn). by apply IH.
Qed.

(** X8.  [validate_job_submission_args] returns its argument, unchanged,
    exactly when every key is one of execution-role-arn and application-id;
    otherwise it raises a [RuntimeError] that names the first key that is
    not.  The empty dictionary is accepted. *)
Theorem submission_args_accepted_iff_keys_valid (submission_args : dict (option string)) :
  (Forall (λ k, k ∈ valid_keys) (dict_keys submission_args) ↔
   (validate_job_submission_args submission_args).2 = Return submission_args) ∧
  (∀ pre k post,
     dict_keys submission_args = pre ++ k :: post →
     Forall (λ k, k ∈ valid_keys) pre →
     k ∉ valid_keys →
     (validate_job_submission_args submission_args).2 =
       Raise (RuntimeError (invalid_submission_argument k))).
Proof.
  assert (Hraise : ∀ pre k post,
     dict_keys submission_args = pre ++ k :: post →
     Forall (λ k, k ∈ valid_keys) pre →
     k ∉ valid_keys →
     (validate_job_submission_args submission_args).2 =
       Raise (RuntimeError (invalid_submission_argument k))).
  { intros pre k post Hkeys Hpre Hk. unfold validate_job_submission_args.
    rewrite Hkeys.
    destruct (validate_loop_invalid submission_args pre post k [] Hpre Hk) as [w ->].
    done. }
  split; [|exact Hraise]. split.
  - intros Hvalid. unfold validate_job_submission_args.
    by rewrite validate_loop_valid.
  - intros Hret.
    destruct (decide (Forall (λ k, k ∈ valid_keys) (dict_keys submission_args)))
      as [Hall|Hnot]; [done|].
    apply first_failure in Hnot as (pre & k & post & Hkeys & Hpre & Hk); [|apply _].
    by rewrite (Hraise pre k post Hkeys Hpre Hk) in Hret.
Qed.

Lemma flat_map_at_one_key {A B : Type} `{EqDecision A} (a : A) (Q : A → Prop)
    `{!∀ x, Decision (Q x)} (w : list B) (keys : list A) :
  NoDup keys →
  flat_map (λ k, if decide (k = a ∧ Q k) then w else []) keys =
    if decide (a ∈ keys ∧ Q a) then w else [].
Proof.
  induction keys as [|k keys IH]; intros Hnd.
  { rewrite decide_False; [done|]. intros [Hin _]. by apply elem_of_nil in Hin. }
  apply NoDup_cons in Hnd as [Hk Hnd]. cbn [flat_map]. rewrite IH by done.
  destruct (decide (k = a ∧ Q k)) as [[-> HQ]|Hno].
  - rewrite (decide_True (P := a ∈ a :: keys ∧ Q a))
      by (split; [apply list_elem_of_here|done]).
    rewrite (decide_False (P := a ∈ keys ∧ Q a)) by (by intros [? _]).
    apply app_nil_r.
  - simpl. destruct (decide (a ∈ keys ∧ Q a)) as [[Hin HQ]|Hno'].
    + rewrite decide_True; [done|]. split; [by apply list_elem_of_further|done].
    + rewrite decide_False; [done|]. intros [Hin HQ].
      apply elem_of_cons in Hin as [->|Hin]; [by apply Hno|by apply Hno'].
Qed.

(** X9.  When every key is valid, [validate_job_submission_args] logs
    one warning if the dictionary maps application-id to [None] and no
    warning otherwise. *)
Theorem warning_iff_application_id_unset (submission_args : dict (option string)) :
  NoDup (dict_keys submission_args) →
  Forall (λ k, k ∈ valid_keys) (dict_keys submission_args) →
  (validate_job_submission_args submission_args).1 =
    if decide (("application-id", None) ∈ submission_args)
    then [application_id_warning] else [].
Proof.
  intros Hnd Hvalid. unfold validate_job_submission_args.
  rewrite validate_loop_valid by done. simpl.
  rewrite (flat_map_at_one_key "application-id"
             (λ k, mjoin (dict_get submission_args k) = None)) by done.
  apply decide_ext. split.
  - intros [Hin Hv].
    destruct (dict_get submission_args "application-id") as [[v|]|] eqn:Hg;
      simpl in Hv; try done.
    + by apply dict_get_elem in Hg.
    + by apply dict_get_None in Hg.
  - intros Hin. split.
    + unfold dict_keys. apply list_elem_of_fmap. by exists ("application-id", None).
    + apply dict_get_elem in Hin; [|done]. by rewrite Hin.
Qed.

(** ** The command lines *)

Lemma flat_map_ext_elem {A B : Type} (f g : A → list B) (l : list A) :
  (∀ a, a ∈ l → f a = g a) → flat_map f l = flat_map g l.
Proof.
  induction l as [|a l IH]; intros Hfg; simpl; [done|].
  rewrite (Hfg a) by apply list_elem_of_here. f_equal.
  apply IH. intros a' Ha'. apply Hfg. by apply list_elem_of_further.
Qed.

Lemma flat_map_fmap {A B C : Type} (f : A → B) (g : B → list C) (l : list A) :
  flat_map g (f <$> l) = flat_map (g ∘ f) l.
Proof.
  induction l as [|a l IH]; [done|]. rewrite fmap_cons. simpl. by rewrite IH.
Qed.

Lemma list_cluster_fold (query_args : dict string) (keys : list string)
    (cmd_params : list string) :
  fold_left
    (λ cmd_params q_key,
       (cmd_params ++ ["--" +:+ q_key]) ++ [format_opt (dict_get query_args q_key)])
    keys cmd_params =
  cmd_params ++
    flat_map (λ q_key, ["--" +:+ q_key; format_opt (dict_get query_args q_key)]) keys.
Proof.
  revert cmd_params. induction keys as [|k keys IH]; intros cmd_params; simpl.
  { by rewrite app_nil_r. }
  rewrite IH. by rewrite <- !app_assoc.
Qed.

(** X10.  The command that lists the instances of a cluster has the
    three leading words and then, for every entry of the query dictionary in
    its order, the flag made of two dashes and the key followed by the value:
    three words without a dictionary, three plus twice the number of entries
    with one. *)
Theorem list_cluster_command_shape (cluster : EMRCluster.t) :
  let base :=
    ["aws emr list-instances"; "--cluster-id"; format_opt (EMRCluster.uuid cluster)] in
  _build_platform_list_cluster cluster None = base ∧
  ∀ query_args : dict string,
    NoDup (dict_keys query_args) →
    _build_platform_list_cluster cluster (Some query_args) =
      base ++ flat_map (λ kv, ["--" +:+ kv.1; kv.2]) query_args ∧
    length (_build_platform_list_cluster cluster (Some query_args)) =
      (3 + 2 * length query_args)%nat.
Proof.
  intros base. split; [done|]. intros query_args Hnd.
  assert (Heq : _build_platform_list_cluster cluster (Some query_args) =
                base ++ flat_map (λ kv, ["--" +:+ kv.1; kv.2]) query_args).
  { unfold _build_platform_list_cluster. rewrite list_cluster_fold. f_equal.
    unfold dict_keys. rewrite flat_map_fmap. apply flat_map_ext_elem.
    intros [k v] Hkv. simpl. apply (dict_get_elem _ _ _ Hnd) in Hkv. by rewrite Hkv. }
  split; [done|]. rewrite Heq, length_app. simpl. f_equal. f_equal. f_equal.
  clear. induction query_args as [|kv q IH]; simpl; [done|]. rewrite IH. lia.
Qed.


(** ** More on the node view *)

Section NodeViewRoles.

Lemma node_of_instance_Ok (σ : Store) (l : loc) (n : EMRNode.t) :
  node_of_instance σ l = Ok n →
  ∃ inst g grp,
    instance_objs σ !! l = Some inst ∧
    Ec2Instance.group inst = Some g ∧
    group_objs σ !! g = Some grp ∧
    n = EMRNode.mk (InstanceGroup.spark_grp_type grp) (Ec2Instance.dns_name inst)
          (InstanceGroup.instance_type grp) l.
Proof.
  unfold node_of_instance, lookup_instance, lookup_group. intros Hn.
  apply bind_Ok in Hn as (inst & Hinst & Hn). apply or_raise_Ok in Hinst.
  apply bind_Ok in Hn as (g & Hg & Hn). apply or_raise_Ok in Hg.
  apply bind_Ok in Hn as (grp & Hgrp & [= <-]). apply or_raise_Ok in Hgrp.
  by exists inst, g, grp.
Qed.

Lemma nodes_of_role (σ : Store) (insts : list loc) (ns : list EMRNode.t)
    (r : SparkNodeType.t) :
  Forall2 (λ l n, node_of_instance σ l = Ok n) insts ns →
  EMRNode.ec2_instance <$> filter (λ n, EMRNode.node_type n = r) ns =
  filter (λ l, role_of_instance σ l = Some r) insts.
Proof.
  induction 1 as [|l n insts ns Hn _ IH]; [done|].
  destruct (node_of_instance_Ok _ _ _ Hn) as (inst & g & grp & Hinst & Hg & Hgrp & ->).
  assert (Hrole : role_of_instance σ l = Some (InstanceGroup.spark_grp_type grp)).
  { unfold role_of_instance. rewrite Hinst. simpl. rewrite Hg. simpl. by rewrite Hgrp. }
  rewrite !filter_cons. simpl. rewrite Hrole.
  destruct (decide (InstanceGroup.spark_grp_type grp = r)) as [Hr|Hr].
  - rewrite decide_True by (by rewrite Hr). rewrite fmap_cons. simpl. by rewrite IH.
  - rewrite decide_False by (intros [= ?]; done). done.
Qed.

(** X11.  The node view files the instances by role: its worker nodes
    view the instances whose group has the worker role, all of them and in
    the order of the instance list, and its master node views the first
    instance whose group has the master role.  Each node has the DNS name of
    its instance as name and the instance type and the role of the
    instance's group. *)
Theorem node_view_files_instances_by_role (σ : Store) (self : EMRCluster.t)
    (insts : list loc) (nodes : Nodes.t) :
  EMRCluster.ec2_instances self = Some insts →
  __create_node_from_instances σ self = Ok nodes →
  EMRNode.ec2_instance <$> Nodes.WORKER nodes =
    filter (λ l, role_of_instance σ l = Some SparkNodeType.WORKER) insts ∧
  head (filter (λ l, role_of_instance σ l = Some SparkNodeType.MASTER) insts) =
    Some (EMRNode.ec2_instance (Nodes.MASTER nodes)) ∧
  ∀ n, n ∈ Nodes.MASTER nodes :: Nodes.WORKER nodes →
       ∃ inst g grp,
         instance_objs σ !! EMRNode.ec2_instance n = Some inst ∧
         Ec2Instance.group inst = Some g ∧
         group_objs σ !! g = Some grp ∧
         EMRNode.name n = Ec2Instance.dns_name inst ∧
         EMRNode.instance_type n = InstanceGroup.instance_type grp ∧
         EMRNode.node_type n = InstanceGroup.spark_grp_type grp.
Proof.
  intros Hinsts Hc. rewrite create_node_from_instances_eq, Hinsts in Hc. simpl in Hc.
  apply bind_Ok in Hc as (ns & Hns & Hc). apply mapM_result_inv in Hns.
  apply bind_Ok in Hc as (master & Hmaster & [= <-]). apply or_raise_Ok in Hmaster.
  rewrite filter_master_not_worker in Hmaster. simpl.
  assert (Hnode : ∀ n, n ∈ ns → ∃ inst g grp,
         instance_objs σ !! EMRNode.ec2_instance n = Some inst ∧
         Ec2Instance.group inst = Some g ∧
         group_objs σ !! g = Some grp ∧
         EMRNode.name n = Ec2Instance.dns_name inst ∧
         EMRNode.instance_type n = InstanceGroup.instance_type grp ∧
         EMRNode.node_type n = InstanceGroup.spark_grp_type grp).
  { intros n Hn. apply list_elem_of_lookup in Hn as [k Hk].
    destruct (Forall2_lookup_r _ _ _ _ _ Hns Hk) as (l & _ & Hl).
    destruct (node_of_instance_Ok _ _ _ Hl) as (inst & g & grp & ? & ? & ? & ->).
    by exists inst, g, grp. }
  split_and!.
  - by apply nodes_of_role.
  - rewrite <- (nodes_of_role σ insts ns SparkNodeType.MASTER Hns).
    destruct (filter (λ n, EMRNode.node_type n = SparkNodeType.MASTER) ns); [done|].
    simpl in *. by injection Hmaster as ->.
  - intros n Hn. apply Hnode. apply elem_of_cons in Hn as [->|Hn].
    + by apply head_Some_elem_of, list_elem_of_filter in Hmaster as [_ ?].
    + by apply list_elem_of_filter in Hn as [_ ?].
Qed.

(** X12.  An instance without group makes the construction of the node
    view fail with an [AttributeError], when every instance of the collection
    is allocated and the groups of the others are. *)
Theorem instance_without_group_breaks_node_view (σ : Store) (self : EMRCluster.t)
    (insts : list loc) (l : loc) (inst : Ec2Instance.t) :
  EMRCluster.ec2_instances self = Some insts →
  l ∈ insts →
  instance_objs σ !! l = Some inst →
  Ec2Instance.group inst = None →
  Forall (λ l', ∃ inst', instance_objs σ !! l' = Some inst' ∧
                         ∀ g, Ec2Instance.group inst' = Some g →
                              is_Some (group_objs σ !! g)) insts →
  __create_node_from_instances σ self = Err AttributeError.
Proof.
  intros Hinsts Hin Hl Hg Hvalid.
  rewrite create_node_from_instances_eq, Hinsts. simpl.
  assert (mapM (node_of_instance σ) insts = Err AttributeError) as ->; [|done].
  clear Hinsts. induction insts as [|l0 insts IH]; [by apply elem_of_nil in Hin|].
  apply Forall_cons_1 in Hvalid as [(inst0 & Hl0 & Hg0) Hvalid]. simpl.
  destruct (node_of_instance σ l0) as [n|e] eqn:Hn; simpl.
  - apply elem_of_cons in Hin as [->|Hin].
    + unfold node_of_instance, lookup_instance in Hn. rewrite Hl in Hn. simpl in Hn.
      by rewrite Hg in Hn.
    + by rewrite IH.
  - unfold node_of_instance, lookup_instance, lookup_group in Hn.
    rewrite Hl0 in Hn. simpl in Hn.
    destruct (Ec2Instance.group inst0) as [g|]; simpl in Hn; [|congruence].
    destruct (Hg0 g eq_refl) as [grp Hgrp]. by rewrite Hgrp in Hn.
Qed.

End NodeViewRoles.

(** ** The cluster envelope *)

Section EnvelopeFacts.
Context `{PropsReader}.

Lemma popitem_snoc (d : dict pyval) (k : string) (v : pyval) :
  popitem (PDict (d ++ [(k, v)])) = Ok ((k, v), PDict d).
Proof. unfold popitem. by rewrite last_snoc, removelast_last. Qed.

(** X13.  Both functions that strip the Cluster envelope replace the
    properties by the value of the entry inserted last, whatever its key is,
    when the reader finds something under Cluster, and leave the properties
    alone when it finds [None].  They differ when what it finds is false
    without being [None], an empty dictionary for one:
    [process_raw_cluster_prop] leaves the properties alone and
    [_process_loaded_props] strips. *)
Theorem envelope_is_the_last_entry (c : PropsContainer) :
  let found := get_value_silent c ["Cluster"] in
  (is_None found = true →
   process_raw_cluster_prop c = Ok (c, json_dumps (props c)) ∧
   _process_loaded_props c = Ok c) ∧
  (truthy found = false →
   process_raw_cluster_prop c = Ok (c, json_dumps (props c))) ∧
  (∀ d k v,
     props c = PDict (d ++ [(k, v)]) →
     (truthy found = true →
      process_raw_cluster_prop c = Ok (mkProps v, json_dumps v)) ∧
     (is_None found = false → _process_loaded_props c = Ok (mkProps v))).
Proof.
  intros found. unfold process_raw_cluster_prop, _process_loaded_props.
  fold found. split_and!.
  - intros Hnone. rewrite Hnone.
    assert (truthy found = false) as -> by by destruct found. done.
  - intros Hfalse. by rewrite Hfalse.
  - intros d k v Hprops. rewrite Hprops, popitem_snoc. split.
    + intros Htrue. by rewrite Htrue.
    + intros Hsome. by rewrite Hsome.
Qed.

(** ** The event logs of a cluster *)

Lemma eventlogs_step_shaped (res_arr : list pyval) (d : dict pyval) (cls : string) :
  dict_get d "Classification" = Some (PStr cls) →
  (String.prefix "spark" cls = false →
   eventlogs_step res_arr (PDict d) = Ok res_arr) ∧
  (∀ p, String.prefix "spark" cls = true →
        dict_get d "Properties" = Some (PDict p) →
        eventlogs_step res_arr (PDict d) =
          Ok (res_arr ++ option_list (dict_get p "spark.eventLog.dir"))).
Proof.
  intros Hcls. unfold eventlogs_step. simpl. rewrite Hcls. simpl. split.
  - by intros ->.
  - intros p -> Hp. rewrite Hp. simpl.
    destruct (dict_get p "spark.eventLog.dir") as [dir|] eqn:Hdir.
    + rewrite bool_decide_eq_true_2.
      * done.
      * apply dec_stable. intros Hno. apply dict_get_None in Hno. congruence.
    + rewrite bool_decide_eq_false_2.
      * simpl. by rewrite app_nil_r.
      * by apply dict_get_None.
Qed.

(** X14.  [get_eventlogs_from_config] raises a [TypeError] when the
    properties have no Configurations.  On a list of configurations each of
    which has a Classification, it returns, in order, the value of
    spark.eventLog.dir of every configuration whose classification starts
    with spark and whose Properties have that key; a configuration of
    another classification contributes nothing and needs no Properties. *)
Theorem eventlogs_of_spark_configurations (c : PropsContainer) :
  (get_value_silent c ["Configurations"] = PNone →
   get_eventlogs_from_config c = Err TypeError) ∧
  (∀ (items : list pyval) (dirs : list (list pyval)),
     get_value_silent c ["Configurations"] = PList items →
     Forall2 (λ item out,
                ∃ d cls,
                  item = PDict d ∧
                  dict_get d "Classification" = Some (PStr cls) ∧
                  if String.prefix "spark" cls
                  then ∃ p, dict_get d "Properties" = Some (PDict p) ∧
                            out = option_list (dict_get p "spark.eventLog.dir")
                  else out = []) items dirs →
     get_eventlogs_from_config c = Ok (concat dirs)).
Proof.
  split.
  - intros Hnone. unfold get_eventlogs_from_config. by rewrite Hnone.
  - intros items dirs Hitems Hshape. unfold get_eventlogs_from_config.
    rewrite Hitems. simpl. clear Hitems.
    enough (Hgen : ∀ res_arr, foldM eventlogs_step items res_arr =
                              Ok (res_arr ++ concat dirs)) by apply (Hgen []).
    induction Hshape as [|item out items' dirs' (d & cls & -> & Hcls & Hcase) _ IH];
      intros res_arr; simpl.
    { by rewrite app_nil_r. }
    destruct (eventlogs_step_shaped res_arr d cls Hcls) as [Hother Hspark].
    destruct (String.prefix "spark" cls) eqn:Hprefix.
    + destruct Hcase as (p & Hp & ->). rewrite (Hspark p eq_refl Hp). simpl.
      rewrite IH. by rewrite <- app_assoc.
    + subst out. rewrite (Hother eq_refl). simpl. by rewrite IH.
Qed.

End EnvelopeFacts.

(** ** The accelerators of a node *)

Section HardwareFacts.
Context `{PropsReader} `{GpuDevices}.

(** X15.  [_pull_gpu_hw_info] returns [None] when the machine description
    has no GpuInfo or its GpuInfo has no Gpus, raises an [IndexError] when
    Gpus is an empty list, and otherwise describes the first element of Gpus
    alone: the count, the device and the memory size are read from it, and
    the other elements are never looked at. *)
Theorem gpu_info_is_read_from_the_first_gpu (mc_props : PropsContainer) :
  (get_value_silent mc_props ["GpuInfo"] = PNone →
   _pull_gpu_hw_info mc_props = Ok None) ∧
  (∀ d, get_value_silent mc_props ["GpuInfo"] = PDict d →
        (dict_get d "Gpus" = None ∨ dict_get d "Gpus" = Some PNone →
         _pull_gpu_hw_info mc_props = Ok None) ∧
        (dict_get d "Gpus" = Some (PList []) →
         _pull_gpu_hw_info mc_props = Err IndexError) ∧
        (∀ g rest name count m size device,
           dict_get d "Gpus" = Some (PList (PDict g :: rest)) →
           dict_get g "Name" = Some name →
           GpuDevice_fromstring name = Ok device →
           dict_get g "Count" = Some count →
           dict_get g "MemoryInfo" = Some (PDict m) →
           dict_get m "SizeInMiB" = Some size →
           _pull_gpu_hw_info mc_props = Ok (Some (mkGpuHWInfo count device size)))).
Proof.
  unfold _pull_gpu_hw_info. split.
  - by intros ->.
  - intros d ->. simpl. split_and!.
    + by intros [-> | ->].
    + by intros ->.
    + intros g rest name count m size device -> Hname Hdev Hcount Hm Hsize. simpl.
      rewrite Hname. simpl. rewrite Hdev. simpl. rewrite Hcount. simpl.
      rewrite Hm. simpl. by rewrite Hsize.
Qed.

End HardwareFacts.

(** ** Pulling the properties of a cluster *)

Section PullFacts.
Context `{PropsReader} `{SysCommands}.

(** X16.  With an Id among the arguments, [pull_cluster_props_by_args]
    runs one command, the description of that cluster, and never lists the
    clusters by name.  It returns [None] when the command yields [None], and
    otherwise the string that [process_raw_cluster_prop] makes of the
    container loaded from what the command yields. *)
Theorem pull_by_id_runs_describe_only (args : dict (option string)) (id : string) :
  mjoin (dict_get args "Id") = Some id →
  let describe_cmd := "aws emr describe-cluster --cluster-id " +:+ id in
  (pull_cluster_props_by_args args).1 = [describe_cmd] ∧
  (run_sys_cmd describe_cmd = Return PNone →
   pull_cluster_props_by_args args = ([describe_cmd], Return PNone)) ∧
  (∀ described container container' text,
     run_sys_cmd describe_cmd = Return described →
     is_None described = false →
     JSONPropertiesContainer described = Return container →
     process_raw_cluster_prop container = Ok (container', text) →
     pull_cluster_props_by_args args = ([describe_cmd], Return (PStr text))).
Proof.
  intros Hid describe_cmd. unfold pull_cluster_props_by_args. rewrite Hid. simpl.
  fold describe_cmd. split_and!.
  - destruct (run_sys_cmd describe_cmd) as [described|e]; simpl; [|done].
    destruct (is_None described); simpl; [done|].
    destruct (JSONPropertiesContainer described) as [container|e]; simpl; [|done].
    by destruct (process_raw_cluster_prop container) as [[? ?]|e].
  - by intros ->.
  - intros described container container' text -> Hsome Hc Hp. simpl.
    rewrite Hsome. simpl. rewrite Hc. simpl. by rewrite Hp.
Qed.

(** X17.  Without an Id, [pull_cluster_props_by_args] first lists the
    clusters of the given name.  When the listing yields nothing, or parses
    to an empty list, it raises the [RuntimeError] that the cluster could not
    be found, and the description command is never run.  When the listing
    parses to a list whose first element has an Id, the second command is the
    description of that Id; the other elements of the list are ignored. *)
Theorem pull_by_name_uses_the_first_listed_cluster (args : dict (option string)) :
  mjoin (dict_get args "Id") = None →
  let cluster_name := mjoin (dict_get args "cluster") in
  let list_cmd :=
    "aws emr list-clusters --query 'Clusters[?Name==`" +:+ format_opt cluster_name
    +:+ "`]'" in
  let not_found := Raise (RuntimeError (could_not_find cluster_name)) in
  (∀ listed, run_sys_cmd list_cmd = Return listed →
             truthy listed = false →
             pull_cluster_props_by_args args = ([list_cmd], not_found)) ∧
  (∀ listed, run_sys_cmd list_cmd = Return listed →
             truthy listed = true →
             json_loads listed = Return (PList []) →
             pull_cluster_props_by_args args = ([list_cmd], not_found)) ∧
  (∀ listed header rest id,
     run_sys_cmd list_cmd = Return listed →
     truthy listed = true →
     json_loads listed = Return (PList (PDict header :: rest)) →
     dict_get header "Id" = Some id →
     (pull_cluster_props_by_args args).1 =
       [list_cmd; "aws emr describe-cluster --cluster-id " +:+ format_value id]).
Proof.
  intros Hid cluster_name list_cmd not_found. unfold pull_cluster_props_by_args.
  rewrite Hid. simpl. fold cluster_name. fold list_cmd. split_and!.
  - intros listed -> Hfalse. simpl. by rewrite Hfalse.
  - intros listed -> Htrue Hloads. simpl. rewrite Htrue. simpl. by rewrite Hloads.
  - intros listed header rest id -> Htrue Hloads Hheader. simpl.
    rewrite Htrue. simpl. rewrite Hloads. simpl. rewrite Hheader. simpl.
    destruct (run_sys_cmd _) as [described|e]; simpl; [|done].
    destruct (is_None described); simpl; [done|].
    destruct (JSONPropertiesContainer described) as [container|e]; simpl; [|done].
    by destruct (process_raw_cluster_prop container) as [[? ?]|e].
Qed.

End PullFacts.

(** ** Loading a cluster *)

Section LoadingFacts.
Context `{SparkNodeType.Parser} `{ClusterLoader}.

Lemma process_cluster_group_inv (σ σ' : Store) (acc gs : list loc)
    (raw : RawInstanceGroup.t) :
  process_cluster_group (σ, acc) raw = Ok (σ', gs) →
  ∃ grp, group_of_raw raw grp ∧
         σ' = mkStore (group_objs σ ++ [grp]) (instance_objs σ) ∧
         gs = acc ++ [length (group_objs σ)].
Proof.
  unfold process_cluster_group. destruct raw as [[id|] [t|] [c|] [m|] [gt|]]; simpl;
    try done.
  intros [= <- <-]. eexists. split; [|done]. by exists id, t, c, m, gt.
Qed.

Lemma process_cluster_group_Err (st : Store * list loc) (raw : RawInstanceGroup.t)
    (e : exn) :
  process_cluster_group st raw = Err e → e = KeyError.
Proof.
  unfold process_cluster_group. destruct st as [σ acc].
  destruct raw as [[id|] [t|] [c|] [m|] [gt|]]; simpl; congruence.
Qed.


Lemma create_ec2_instance_inv (g : option loc) (σ σ' : Store) (acc out : list loc)
    (raw : RawInstance.t) :
  create_ec2_instance g (σ, acc) raw = Ok (σ', out) →
  ∃ inst, instance_of_raw g raw inst ∧
          σ' = mkStore (group_objs σ) (instance_objs σ ++ [inst]) ∧
          out = acc ++ [length (instance_objs σ)].
Proof.
  unfold create_ec2_instance. destruct raw as [[id|] [e|] [d|] [[st|]|]]; simpl;
    try done.
  intros [= <- <-]. eexists. split; [|done]. by exists id, e, d, st.
Qed.

Lemma create_ec2_instances_inv (g : option loc) (raws : list RawInstance.t)
    (σ σ' : Store) (acc out : list loc) :
  foldM (create_ec2_instance g) raws (σ, acc) = Ok (σ', out) →
  ∃ insts,
    Forall2 (instance_of_raw g) raws insts ∧
    σ' = mkStore (group_objs σ) (instance_objs σ ++ insts) ∧
    out = acc ++ seq (length (instance_objs σ)) (length raws).
Proof.
  revert σ acc. induction raws as [|raw raws IH]; intros σ acc; simpl.
  { intros [= <- <-]. exists []. rewrite !app_nil_r. split; [constructor|].
    by destruct σ. }
  intros Hc. apply bind_Ok in Hc as ([σ1 out1] & Hstep & Hrest).
  apply create_ec2_instance_inv in Hstep as (inst & Hinst & -> & ->).
  apply IH in Hrest as (insts & Hall & -> & ->). simpl.
  exists (inst :: insts). split; [by constructor|]. rewrite <- !app_assoc. simpl.
  split; [done|]. rewrite length_app. simpl. by rewrite Nat.add_1_r.
Qed.





(** X19.  When an entry of InstanceGroups lacks one of the five keys
    that [_init_nodes] reads, loading raises a [KeyError]. *)
Theorem incomplete_group_description_is_a_key_error (raws : list RawInstanceGroup.t)
    (raw : RawInstanceGroup.t) (σ : Store) (self : EMRCluster.t) :
  raw ∈ raws →
  RawInstanceGroup.Id raw = None ∨ RawInstanceGroup.InstanceType raw = None ∨
  RawInstanceGroup.RequestedInstanceCount raw = None ∨
  RawInstanceGroup.Market raw = None ∨ RawInstanceGroup.InstanceGroupType raw = None →
  _init_nodes (Ok raws) σ self = Err KeyError.
Proof.
  intros Hin Hmissing. unfold _init_nodes. simpl. unfold process_cluster_group_list.
  assert (Hfold : ∀ st, foldM process_cluster_group raws st = Err KeyError);
    [|by rewrite Hfold].
  induction raws as [|raw0 raws IH]; intros st; [by apply elem_of_nil in Hin|].
  simpl. destruct (process_cluster_group st raw0) as [st'|e] eqn:Hstep; simpl.
  - apply elem_of_cons in Hin as [->|Hin]; [|by apply IH].
    exfalso. destruct st as [σ0 acc], st' as [σ1 gs].
    apply process_cluster_group_inv in Hstep as (grp & Hraw & _).
    destruct Hraw as (? & ? & ? & ? & ? & -> & _). simpl in Hmissing.
    by destruct Hmissing as [?|[?|[?|[?|?]]]].
  - by rewrite (process_cluster_group_Err _ _ _ Hstep).
Qed.

(** X20.  The instances that [__create_ec2_list_by_group] builds are
    new objects, one for each listed instance and in the order of the
    listing, with the DNS name, the ids and the parsed state of the listing;
    they all refer to the group the function was called with, and to no
    group when it was called with a group id.  The function raises a
    [TypeError] when the listing has no Instances. *)
Theorem ec2_list_refers_to_the_group_given (σ : Store) (self : EMRCluster.t) :
  (∀ l grp σ' out,
     group_objs σ !! l = Some grp →
     __create_ec2_list_by_group σ self (inl l) = Ok (σ', out) →
     ∃ raws insts,
       list_cluster_instances self [("instance-group-id", InstanceGroup.id grp)] =
         Ok (Some raws) ∧
       Forall2 (instance_of_raw (Some l)) raws insts ∧
       σ' = mkStore (group_objs σ) (instance_objs σ ++ insts) ∧
       out = seq (length (instance_objs σ)) (length insts)) ∧
  (∀ group_id σ' out,
     __create_ec2_list_by_group σ self (inr group_id) = Ok (σ', out) →
     ∃ raws insts,
       list_cluster_instances self [("instance-group-id", group_id)] = Ok (Some raws) ∧
       Forall2 (instance_of_raw None) raws insts ∧
       σ' = mkStore (group_objs σ) (instance_objs σ ++ insts) ∧
       out = seq (length (instance_objs σ)) (length insts)) ∧
  (∀ group_id,
     list_cluster_instances self [("instance-group-id", group_id)] = Ok None →
     __create_ec2_list_by_group σ self (inr group_id) = Err TypeError).
Proof.
  assert (Hgen : ∀ group_obj group_id σ' out,
     (listing ← list_cluster_instances self [("instance-group-id", group_id)];
      raws ← or_raise TypeError listing;
      foldM (create_ec2_instance group_obj) raws (σ, [])) = Ok (σ', out) →
     ∃ raws insts,
       list_cluster_instances self [("instance-group-id", group_id)] = Ok (Some raws) ∧
       Forall2 (instance_of_raw group_obj) raws insts ∧
       σ' = mkStore (group_objs σ) (instance_objs σ ++ insts) ∧
       out = seq (length (instance_objs σ)) (length insts)).
  { intros group_obj group_id σ' out Hc.
    apply bind_Ok in Hc as (listing & Hlisting & Hc).
    apply bind_Ok in Hc as (raws & Hraws & Hc). apply or_raise_Ok in Hraws. subst listing.
    apply create_ec2_instances_inv in Hc as (insts & Hall & -> & ->).
    exists raws, insts. simpl. rewrite (Forall2_length _ _ _ Hall). by split_and!. }
  split_and!.
  - intros l grp σ' out Hgrp Hc. unfold __create_ec2_list_by_group, lookup_group in Hc.
    rewrite Hgrp in Hc. simpl in Hc. by apply Hgen.
  - intros group_id σ' out Hc. by apply Hgen.
  - intros group_id Hnone. unfold __create_ec2_list_by_group. simpl. by rewrite Hnone.
Qed.

End LoadingFacts.

(** ** The theorems above at the scenarios and the examples *)

Lemma scenario_run_g5 :
  ∃ run, @migrate_from_cluster Scenario.parser Scenario.matcher_g5 EMRCluster.init
           Scenario.source Scenario.store = Ok run.
Proof. eexists. vm_compute. reflexivity. Defined.

Lemma scenario_run_same :
  ∃ run, @migrate_from_cluster Scenario.parser Scenario.matcher_same EMRCluster.init
           Scenario.source Scenario.store = Ok run.
Proof. eexists. vm_compute. reflexivity. Defined.

Lemma first_worker_node_of_a_type_decides_witness :
  ∃ (mc : McMap) (calls : list EMRNode.t),
    @find_matches_for_node Scenario.matcher_g5 Scenario.source = Ok (mc, calls) ∧
    mc !! Some "r5.2xlarge" = Some (Some "g5.2xlarge").
Proof.
  destruct (@first_worker_node_of_a_type_decides Scenario.matcher_g5 Scenario.source
              Scenario.source_nodes []
              (drop 1 (Nodes.WORKER Scenario.source_nodes))
              (EMRNode.mk SparkNodeType.WORKER (Some "ec2-1") (Some "r5.2xlarge") 1%nat)
              eq_refl eq_refl)
    as (mc & calls & Hfind & Hmc & _).
  { intros Hin. by apply elem_of_nil in Hin. }
  by exists mc, calls.
Defined.

Lemma migration_preserves_counts_witness :
  ∃ run news_g,
    @migrate_from_cluster Scenario.parser Scenario.matcher_g5 EMRCluster.init
      Scenario.source Scenario.store = Ok run ∧
    EMRCluster.instance_groups (gpu_cluster_ob run) = Some news_g ∧
    length news_g = 2%nat ∧
    EMRCluster.ec2_instances (gpu_cluster_ob run) = Some [4; 5; 6; 7]%nat.
Proof.
  destruct scenario_run_g5 as [run Hrun].
  destruct (@migration_preserves_counts Scenario.parser Scenario.matcher_g5
              EMRCluster.init Scenario.source Scenario.store run [0; 1]%nat
              [0; 1; 2; 3]%nat Hrun eq_refl eq_refl)
    as (news_g & Hg & Hlen & Hi & _).
  by exists run, news_g.
Defined.

Lemma rebuilt_group_differs_in_type_only_witness :
  ∃ run news_g,
    @migrate_from_cluster Scenario.parser Scenario.matcher_g5 EMRCluster.init
      Scenario.source Scenario.store = Ok run ∧
    EMRCluster.instance_groups (gpu_cluster_ob run) = Some news_g ∧
    length news_g = 2%nat.
Proof.
  destruct scenario_run_g5 as [run Hrun].
  destruct (@rebuilt_group_differs_in_type_only Scenario.parser Scenario.matcher_g5
              EMRCluster.init Scenario.source Scenario.store run [0; 1]%nat
              Hrun eq_refl) as (news_g & Hg & Hall).
  exists run, news_g. split_and!; try done. by rewrite <- (Forall2_length _ _ _ Hall).
Defined.

Lemma scenario_worker_ids_distinct :
  ∀ i j li lj gi gj,
    [0; 1]%nat !! i = Some li → [0; 1]%nat !! j = Some lj →
    group_objs Scenario.store !! li = Some gi →
    group_objs Scenario.store !! lj = Some gj →
    InstanceGroup.spark_grp_type gi ≠ SparkNodeType.MASTER →
    InstanceGroup.spark_grp_type gj ≠ SparkNodeType.MASTER →
    InstanceGroup.id gi = InstanceGroup.id gj → i = j.
Proof.
  intros i j li lj gi gj Hi Hj Hgi Hgj Hmi Hmj _.
  destruct i as [|[|i]]; simpl in Hi; [| |done]; injection Hi as <-;
    simpl in Hgi; injection Hgi as <-;
    destruct j as [|[|j]]; simpl in Hj; try done; injection Hj as <-;
    simpl in Hgj; injection Hgj as <-; try done.
Defined.

Lemma migrated_instances_follow_their_groups_witness :
  ∃ run news_g news_i l' inst' g',
    @migrate_from_cluster Scenario.parser Scenario.matcher_g5 EMRCluster.init
      Scenario.source Scenario.store = Ok run ∧
    EMRCluster.instance_groups (gpu_cluster_ob run) = Some news_g ∧
    EMRCluster.ec2_instances (gpu_cluster_ob run) = Some news_i ∧
    news_i !! 1%nat = Some l' ∧
    instance_objs (heap run) !! l' = Some inst' ∧
    Ec2Instance.group inst' = Some g' ∧
    news_g !! 1%nat = Some g'.
Proof.
  destruct scenario_run_g5 as [run Hrun].
  destruct (@migrated_instances_follow_their_groups Scenario.parser Scenario.matcher_g5
              EMRCluster.init Scenario.source Scenario.store run [0; 1]%nat
              [0; 1; 2; 3]%nat Hrun eq_refl eq_refl)
    as (news_g & news_i & Hg & Hi & Hlink).
  { repeat constructor; by eexists. }
  { exact scenario_worker_ids_distinct. }
  destruct (Hlink 1%nat 1%nat (Scenario.instance "1" 1%nat) 1%nat 1%nat
              eq_refl eq_refl eq_refl eq_refl) as (l' & inst' & g' & ? & ? & ? & ?).
  by exists run, news_g, news_i, l', inst', g'.
Defined.

Lemma migrated_nodes_have_no_name_witness :
  ∃ run nodes',
    @migrate_from_cluster Scenario.parser Scenario.matcher_g5 EMRCluster.init
      Scenario.source Scenario.store = Ok run ∧
    EMRCluster.nodes (gpu_cluster_ob run) = Some nodes' ∧
    EMRNode.name (Nodes.MASTER nodes') = None.
Proof.
  destruct scenario_run_g5 as [run Hrun].
  destruct (@migrated_nodes_have_no_name Scenario.parser Scenario.matcher_g5
              EMRCluster.init Scenario.source Scenario.store run Hrun)
    as (nodes' & news_i & Hn & _ & _ & Hname & _).
  by exists run, nodes'.
Defined.

Lemma migration_without_substitution_changes_nothing_witness :
  ∃ run,
    @migrate_from_cluster Scenario.parser Scenario.matcher_same EMRCluster.init
      Scenario.source Scenario.store = Ok run ∧
    EMRCluster.instance_groups (gpu_cluster_ob run) = Some [0; 1]%nat ∧
    @_get_cost_per_cluster Scenario.Z_arith Scenario.prices (heap run)
      (gpu_cluster_ob run) = Ok 87%Z.
Proof.
  destruct scenario_run_same as [run Hrun].
  destruct (@migration_without_substitution_changes_nothing Scenario.parser
              Scenario.matcher_same Scenario.Z_arith Scenario.prices EMRCluster.init
              Scenario.source Scenario.store run Scenario.source_nodes Hrun eq_refl)
    as (Hg & _ & Hcost & _).
  { by intros n _. }
  exists run. split_and!; done.
Defined.

Lemma source_reads_the_same_after_migration_witness :
  ∃ run,
    @migrate_from_cluster Scenario.parser Scenario.matcher_g5 EMRCluster.init
      Scenario.source Scenario.store = Ok run ∧
    __create_node_from_instances (heap run) Scenario.source = Ok Scenario.source_nodes ∧
    @_get_cost_per_cluster Scenario.Z_arith Scenario.prices (heap run) Scenario.source =
      Ok 87%Z.
Proof.
  destruct scenario_run_g5 as [run Hrun].
  destruct (@source_reads_the_same_after_migration Scenario.parser Scenario.matcher_g5
              Scenario.Z_arith Scenario.prices EMRCluster.init Scenario.source
              Scenario.store run source_well_formed_in_scenario Hrun) as [Hn Hc].
  exists run. split_and!; [done| by rewrite Hn | by rewrite Hc].
Defined.

Lemma submission_args_accepted_iff_keys_valid_witness :
  (validate_job_submission_args [("application-id", Some "00f1")]).2 =
    Return [("application-id", Some "00f1")] ∧
  (validate_job_submission_args
     [("application-id", Some "00f1"); ("region", Some "us-west-2")]).2 =
    Raise (RuntimeError (invalid_submission_argument "region")).
Proof.
  split.
  - apply (proj1 (submission_args_accepted_iff_keys_valid
                    [("application-id", Some "00f1")])).
    repeat constructor.
  - apply (proj2 (submission_args_accepted_iff_keys_valid
                    [("application-id", Some "00f1"); ("region", Some "us-west-2")])
             ["application-id"] "region" []); [done| |].
    + repeat constructor.
    + unfold valid_keys. rewrite !elem_of_cons, elem_of_nil. by intros [?|[?|?]].
Defined.

Lemma warning_iff_application_id_unset_witness :
  (validate_job_submission_args
     [("execution-role-arn", Some "arn"); ("application-id", None)]).1 =
    [application_id_warning].
Proof.
  rewrite warning_iff_application_id_unset.
  - apply decide_True. apply list_elem_of_further, list_elem_of_here.
  - apply NoDup_cons. split; [|apply NoDup_singleton].
    by intros Hin%list_elem_of_singleton.
  - unfold valid_keys. repeat constructor.
Defined.

Lemma list_cluster_command_shape_witness :
  _build_platform_list_cluster Scenario.source (Some [("instance-group-id", "ig-C")]) =
    ["aws emr list-instances"; "--cluster-id"; "j-1"; "--instance-group-id"; "ig-C"].
Proof.
  destruct (list_cluster_command_shape Scenario.source) as [_ Hshape].
  destruct (Hshape [("instance-group-id", "ig-C")]) as [Heq _].
  { repeat constructor. by intros Hin%elem_of_nil. }
  by rewrite Heq.
Defined.


Lemma node_view_files_instances_by_role_witness :
  EMRNode.ec2_instance <$> Nodes.WORKER Scenario.source_nodes = [1; 2; 3]%nat.
Proof.
  destruct (node_view_files_instances_by_role Scenario.store Scenario.unloaded
              [0; 1; 2; 3]%nat Scenario.source_nodes eq_refl eq_refl) as [Hw _].
  by rewrite Hw.
Defined.

Lemma instance_without_group_breaks_node_view_witness :
  __create_node_from_instances Examples.ungrouped_store Examples.ungrouped =
    Err AttributeError.
Proof.
  apply (instance_without_group_breaks_node_view Examples.ungrouped_store
           Examples.ungrouped [0; 1]%nat 1%nat
           (Ec2Instance.mk "ci-1" "i-1" (Some "ec2-1") None ClusterState.RUNNING));
    try reflexivity.
  - apply list_elem_of_further, list_elem_of_here.
  - repeat constructor.
    + eexists. split; [reflexivity|]. intros g [= <-]. by eexists.
    + eexists. split; [reflexivity|]. by intros g [=].
Defined.

Lemma envelope_is_the_last_entry_witness :
  @process_raw_cluster_prop Examples.reader Examples.described =
    Ok (mkProps Examples.cluster_props, "{}") ∧
  @_process_loaded_props Examples.reader Examples.described =
    Ok (mkProps Examples.cluster_props).
Proof.
  destruct (@envelope_is_the_last_entry Examples.reader Examples.described)
    as (_ & _ & Hlast).
  destruct (Hlast [] "Cluster" Examples.cluster_props eq_refl) as [Hraw Hloaded].
  split; [by apply Hraw|by apply Hloaded].
Defined.

Lemma eventlogs_of_spark_configurations_witness :
  @get_eventlogs_from_config Examples.reader (mkProps Examples.cluster_props) =
    Ok [PStr "s3://logs/a"].
Proof.
  apply (proj2 (@eventlogs_of_spark_configurations Examples.reader
                  (mkProps Examples.cluster_props)) _
           [[PStr "s3://logs/a"]; []; []] eq_refl).
  repeat constructor.
  - eexists _, "spark-defaults". split_and!; try reflexivity. simpl.
    eexists. split; reflexivity.
  - eexists _, "yarn-site". split_and!; reflexivity.
  - eexists _, "spark-env". split_and!; try reflexivity. simpl.
    eexists. split; reflexivity.
Defined.

Lemma gpu_info_is_read_from_the_first_gpu_witness :
  @_pull_gpu_hw_info Examples.reader Examples.gpu_devices Examples.machine =
    Ok (Some (@mkGpuHWInfo Examples.gpu_devices (PInt 1) "A10G" (PInt 24576))).
Proof.
  destruct (@gpu_info_is_read_from_the_first_gpu Examples.reader Examples.gpu_devices
              Examples.machine) as [_ Hdict].
  destruct (Hdict _ eq_refl) as (_ & _ & Hfirst).
  by eapply Hfirst.
Defined.

Lemma pull_by_id_runs_describe_only_witness :
  (@pull_cluster_props_by_args Examples.reader Examples.commands
     [("Id", Some "j-1"); ("cluster", Some "etl")]).1 =
    ["aws emr describe-cluster --cluster-id j-1"].
Proof.
  by destruct (@pull_by_id_runs_describe_only Examples.reader Examples.commands
                 [("Id", Some "j-1"); ("cluster", Some "etl")] "j-1" eq_refl)
    as [Hcmds _].
Defined.

Lemma pull_by_name_uses_the_first_listed_cluster_witness :
  (@pull_cluster_props_by_args Examples.reader Examples.commands
     [("cluster", Some "etl"); ("region", Some "us-west-2")]).1 =
    ["aws emr list-clusters --query 'Clusters[?Name==`etl`]'";
     "aws emr describe-cluster --cluster-id j-1"].
Proof.
  destruct (@pull_by_name_uses_the_first_listed_cluster Examples.reader
              Examples.commands [("cluster", Some "etl"); ("region", Some "us-west-2")]
              eq_refl) as (_ & _ & Hfirst).
  by apply (Hfirst (PStr "[{...}]") [("Id", PStr "j-1")] [PDict []] (PStr "j-1")).
Defined.



Lemma incomplete_group_description_is_a_key_error_witness :
  @_init_nodes Scenario.parser Examples.loader
    (Ok (Examples.raw_groups ++ [Examples.raw_group_without_market]))
    Examples.empty_store EMRCluster.init = Err KeyError.
Proof.
  apply (@incomplete_group_description_is_a_key_error Scenario.parser Examples.loader
           _ Examples.raw_group_without_market).
  - rewrite elem_of_app. right. apply list_elem_of_here.
  - right. right. right. by left.
Defined.

Lemma ec2_list_refers_to_the_group_given_witness :
  ∃ σ' out raws insts,
    @__create_ec2_list_by_group Examples.loader Scenario.store Scenario.source
      (inl 1%nat) = Ok (σ', out) ∧
    Forall2 (@instance_of_raw Examples.loader (Some 1%nat)) raws insts ∧
    out = [4; 5]%nat.
Proof.
  assert (∃ σ' out, @__create_ec2_list_by_group Examples.loader Scenario.store
                      Scenario.source (inl 1%nat) = Ok (σ', out))
    as (σ' & out & Hlist) by (eexists _, _; vm_compute; reflexivity).
  destruct (@ec2_list_refers_to_the_group_given Examples.loader Scenario.store
              Scenario.source) as (Hobj & _ & _).
  destruct (Hobj 1%nat Scenario.core_group σ' out eq_refl Hlist)
    as (raws & insts & Hlisting & Hall & _ & Hout).
  exists σ', out, raws, insts. split_and!; try done.
  injection Hlisting as <-. apply Forall2_length in Hall. rewrite Hout, <- Hall.
  reflexivity.
Defined.
